(** * Code-Cleaner: the comment-stripping scanner and the per-file pipeline

    A shallow embedding of [src/code-cleaner.py].

    - A Python [str] is a sequence of Unicode code points: [list N].
    - The empty string used as a sentinel (for [next_char] at the end of
      the input and for the initial [string_char]) is [None]; a
      one-character string is [Some c].
    - The index [i] only ever grows from [0], so it is a [nat];
      [content[i - 1]] is evaluated with Python's indexing rules on the
      integer [i - 1] (a negative index counts from the end).
    - An operation that can raise [IndexError] returns [option]. *)

From Stdlib Require Import ZArith NArith List Ascii String Bool Lia Sorted.
From stdpp Require Import base option list strings gmap stringmap.

Open Scope nat_scope.

(** ** Characters and strings *)

(** A string literal of the source as a sequence of code points. *)
Definition str (s : string) : list N := map N_of_ascii (list_ascii_of_string s).

(** The characters the scanner tests for, by code point. *)
Definition newline : N := 10.
Definition dquote : N := 34.
Definition hash : N := 35.
Definition squote : N := 39.
Definition star : N := 42.
Definition slash : N := 47.
Definition backslash : N := 92.
Definition backtick : N := 96.
Definition less_than : N := 60.

(** Membership of [char] in the set of the three quote characters. *)
Definition is_quote (c : N) : bool :=
  (c =? squote)%N || (c =? dquote)%N || (c =? backtick)%N.

(** [o == c] where [o] is a string of length at most one. *)
Definition is_char (o : option N) (c : N) : bool :=
  match o with
  | Some d => (d =? c)%N
  | None => false
  end.

(** [s[k]] with Python's rules: a negative index counts from the end and an
    index out of range raises [IndexError] ([None]). *)
Definition py_index (s : list N) (k : Z) : option N :=
  let len := Z.of_nat (length s) in
  if ((0 <=? k) && (k <? len))%Z then s !! Z.to_nat k
  else if ((- len <=? k) && (k <? 0))%Z then s !! Z.to_nat (len + k)
  else None.

(** [s[a:a+n]]: slicing clamps to the length and never raises. *)
Definition py_slice (s : list N) (a n : nat) : list N := take n (drop a s).

Fixpoint starts_with (pat s : list N) : bool :=
  match pat, s with
  | [], _ => true
  | p :: pat', c :: s' => (p =? c)%N && starts_with pat' s'
  | _ :: _, [] => false
  end.

(** Lowest index [k], counted from [start], at which [pat] occurs in [s]. *)
Fixpoint find_at (pat s : list N) (start : nat) : option nat :=
  if starts_with pat s then Some start
  else match s with
       | [] => None
       | _ :: s' => find_at pat s' (S start)
       end.

(** [s.find(pat, start)]; [None] stands for the result [-1]. *)
Definition py_find (s pat : list N) (start : nat) : option nat :=
  if start <=? length s then find_at pat (drop start s) start else None.

(** ** Language selection by file suffix *)

Definition clike_suffixes : list string :=
  [".js"; ".ts"; ".jsx"; ".tsx"; ".java"; ".c"; ".cpp"; ".h"; ".hpp"; ".go"; ".php"]%string.

Definition markup_suffixes : list string := [".html"; ".htm"]%string.

Definition suffix_in (suffix : string) (l : list string) : bool :=
  existsb (String.eqb suffix) l.

(** The suffixes for which the scanner has a comment rule. *)
Definition recognized (suffix : string) : bool :=
  (suffix =? ".py")%string || suffix_in suffix clike_suffixes
  || (suffix =? ".css")%string || suffix_in suffix markup_suffixes.

Arguments suffix_in : simpl never.
Arguments is_quote : simpl never.
Arguments py_slice : simpl never.
Arguments py_find : simpl never.
Arguments String.eqb : simpl never.

(** ** The scanner *)

Record State := mkState {
  result : list N;
  i : nat;
  in_string : bool;
  string_char : option N;
  in_block_comment : bool;
  in_line_comment : bool
}.

Definition init : State := mkState [] 0 false None false false.

(** Code mode: the scanner is neither in a comment nor in a string. *)
Definition code_mode (st : State) : bool :=
  negb (in_string st || in_block_comment st || in_line_comment st).

Section Scanner.

Variable content : list N.
Variable suffix : string.

(** The last two statements of the loop body: emit [char], advance by one. *)
Definition emit_default (st : State) (char : N) : State :=
  mkState (result st ++ [char]) (i st + 1) (in_string st) (string_char st)
          (in_block_comment st) (in_line_comment st).

(** One iteration of the [while] loop, entered with [i < length]. *)
Definition step (st : State) : option State :=
  char ← py_index content (Z.of_nat (i st));
  let next_char :=
    if i st + 1 <? length content then content !! (i st + 1) else None in
  if in_line_comment st then
    if (char =? newline)%N then
      Some (mkState (result st ++ [char]) (i st + 1) (in_string st)
                    (string_char st) (in_block_comment st) false)
    else
      Some (mkState (result st) (i st + 1) (in_string st)
                    (string_char st) (in_block_comment st) (in_line_comment st))
  else if in_block_comment st then
    if (char =? star)%N && is_char next_char slash then
      Some (mkState (result st) (i st + 2) (in_string st)
                    (string_char st) false (in_line_comment st))
    else
      Some (mkState (result st) (i st + 1) (in_string st)
                    (string_char st) (in_block_comment st) (in_line_comment st))
  else if in_string st then
    prev ← py_index content (Z.of_nat (i st) - 1);
    if is_char (string_char st) char && negb (prev =? backslash)%N then
      Some (mkState (result st ++ [char]) (i st + 1) false
                    (string_char st) (in_block_comment st) (in_line_comment st))
    else
      Some (mkState (result st ++ [char]) (i st + 1) (in_string st)
                    (string_char st) (in_block_comment st) (in_line_comment st))
  else if is_quote char then
    Some (mkState (result st ++ [char]) (i st + 1) true
                  (Some char) (in_block_comment st) (in_line_comment st))
  else if (suffix =? ".py")%string && (char =? hash)%N then
    Some (mkState (result st) (i st + 1) (in_string st)
                  (string_char st) (in_block_comment st) true)
  else if suffix_in suffix clike_suffixes
          && (char =? slash)%N && is_char next_char slash then
    Some (mkState (result st) (i st + 2) (in_string st)
                  (string_char st) (in_block_comment st) true)
  else if suffix_in suffix clike_suffixes
          && (char =? slash)%N && is_char next_char star then
    Some (mkState (result st) (i st + 2) (in_string st)
                  (string_char st) true (in_line_comment st))
  else if (suffix =? ".css")%string
          && (char =? slash)%N && is_char next_char star then
    Some (mkState (result st) (i st + 2) (in_string st)
                  (string_char st) true (in_line_comment st))
  else if suffix_in suffix markup_suffixes
          && bool_decide (py_slice content (i st) 4 = str "<!--") then
    match py_find content (str "-->") (i st + 4) with
    | Some end_ =>
        Some (mkState (result st) (end_ + 3) (in_string st)
                      (string_char st) (in_block_comment st) (in_line_comment st))
    | None => Some (emit_default st char)
    end
  else Some (emit_default st char).

(** The [while i < length] loop.  [None] is an uncaught [IndexError] or an
    exhausted iteration budget. *)
Fixpoint loop (fuel : nat) (st : State) : option State :=
  if i st <? length content then
    match fuel with
    | 0 => None
    | S fuel' => st' ← step st; loop fuel' st'
    end
  else Some st.

(** The first [n] iterations of the loop body, started from [st]. *)
Fixpoint iter (n : nat) (st : State) : option State :=
  match n with
  | 0 => Some st
  | S n' => if i st <? length content then st' ← step st; iter n' st' else None
  end.

End Scanner.

(** [remove_comments_safely(content, suffix)]; every iteration advances [i],
    so [length content] iterations are enough (lemma [run_final]). *)
Definition remove_comments_safely (content : list N) (suffix : string) : option (list N) :=
  result <$> loop content suffix (length content) init.

(** ** Invariant of the loop *)

Section InvariantDef.

Variable content : list N.
Variable suffix : string.

(** What holds of the variables at the head of every iteration: the index is
    in range, at most one of the three mode flags is set, a string was
    opened by a quote character at an earlier index, and everything emitted
    so far was read, in order, from the part of the input already
    consumed. *)
Record Inv (st : State) : Prop := {
  inv_bound : i st <= length content;
  inv_modes :
    (in_line_comment st && in_block_comment st)
    || (in_line_comment st && in_string st)
    || (in_block_comment st && in_string st) = false;
  inv_string :
    in_string st = true ->
    1 <= i st /\ exists q, string_char st = Some q /\ is_quote q = true;
  inv_sub : sublist (result st) (take (i st) content)
}.

Definition reachable (st : State) : Prop :=
  exists n, iter content suffix n init = Some st.

(** How far one iteration moves the index: by one, by two, or to just
    behind the closing marker found by [find]. *)
Definition advance (st st' : State) : Prop :=
  i st' = i st + 1 \/ i st' = i st + 2 \/
  exists end_, py_find content (str "-->") (i st + 4) = Some end_ /\ i st' = end_ + 3.

End InvariantDef.

(** ** Vocabulary of the statements *)

(** The characters of [out] are the characters of [l] at strictly
    increasing positions. *)
Definition at_increasing_positions (out l : list N) : Prop :=
  exists ps : list nat,
    StronglySorted lt ps /\ Forall2 (fun p c => l !! p = Some c) ps out.

(** A line comment opens at index [k] of the input, with an opener of the
    given width: the hash sign for Python, two slashes for the C-like
    languages. *)
Definition opens_line_comment (content : list N) (suffix : string) (k : nat) : option nat :=
  if (suffix =? ".py")%string && is_char (content !! k) hash then Some 1
  else if suffix_in suffix clike_suffixes && is_char (content !! k) slash
          && is_char (content !! (k + 1)) slash then Some 2
  else None.

(** A block comment opens at index [k]: slash and star, for the C-like
    languages and for CSS. *)
Definition opens_block_comment (content : list N) (suffix : string) (k : nat) : bool :=
  (suffix_in suffix clike_suffixes || (suffix =? ".css")%string)
  && is_char (content !! k) slash && is_char (content !! (k + 1)) star.

(** The closing marker of a block comment stands at index [k]. *)
Definition block_close_at (content : list N) (k : nat) : Prop :=
  content !! k = Some star /\ content !! (k + 1) = Some slash.

(** ** The loop read as a recursion over the rest of the input

    The mode is the combination of the three flags; a string carries its
    delimiter and the character before the current one.  The markup rule,
    which looks arbitrarily far ahead, is not part of this reading: lemma
    [loop_is_scan] shows that the function computes [scan suffix Code] for
    every suffix other than the two markup suffixes. *)

Inductive Mode :=
| Code
| LineComment
| BlockComment
| StringLiteral (delimiter prev : N).

Fixpoint scan (suffix : string) (m : Mode) (l : list N) {struct l} : list N :=
  match l with
  | [] => []
  | c :: t =>
      match m with
      | LineComment =>
          if (c =? newline)%N then c :: scan suffix Code t
          else scan suffix LineComment t
      | BlockComment =>
          match t with
          | d :: t' =>
              if (c =? star)%N && (d =? slash)%N then scan suffix Code t'
              else scan suffix BlockComment t
          | [] => []
          end
      | StringLiteral q p =>
          c :: (if (q =? c)%N && negb (p =? backslash)%N then scan suffix Code t
                else scan suffix (StringLiteral q c) t)
      | Code =>
          if is_quote c then c :: scan suffix (StringLiteral c c) t
          else if (suffix =? ".py")%string && (c =? hash)%N then scan suffix LineComment t
          else
            match t with
            | d :: t' =>
                if suffix_in suffix clike_suffixes && (c =? slash)%N && (d =? slash)%N
                then scan suffix LineComment t'
                else if (suffix_in suffix clike_suffixes || (suffix =? ".css")%string)
                        && (c =? slash)%N && (d =? star)%N
                then scan suffix BlockComment t'
                else c :: scan suffix Code t
            | [] => [c]
            end
      end
  end.

(** What the loop is still going to emit from a given state. *)
Definition remaining (content : list N) (suffix : string) (st : State) : list N :=
  let rest := drop (i st) content in
  if in_line_comment st then scan suffix LineComment rest
  else if in_block_comment st then scan suffix BlockComment rest
  else if in_string st then
    match string_char st, content !! (i st - 1) with
    | Some q, Some p => scan suffix (StringLiteral q p) rest
    | _, _ => []
    end
  else scan suffix Code rest.

(** ** The per-file pipeline

    The file system is a finite map from path names to file contents
    (bytes).  What the program calls outside itself is a parameter of the
    model: the suffix of a path, the UTF-8 codec, the name chosen for a
    temporary file, Python's own parser, the external checkers, and whether
    a path can be written.  A call that raises returns [inl] with the text
    of the exception. *)

Record External := mkExternal {
  (** [file_path.suffix.lower()] *)
  suffix_of : string -> string;
  (** [bytes.decode] for UTF-8 with [errors] set to [ignore] *)
  utf8_decode_ignore : list Byte.byte -> list N;
  (** [content.encode] for UTF-8; [None] when it raises. *)
  utf8_encode : list N -> option (list Byte.byte);
  (** [ast.parse(content)] returns without raising. *)
  ast_parse_ok : list N -> bool;
  (** The name [NamedTemporaryFile(delete=False, suffix=suffix)] creates;
      [None] when it raises. *)
  mktemp : gmap string (list Byte.byte) -> string -> option string;
  (** [subprocess.run(command + [tmp_path])] on a temporary file with the
      given suffix and contents: whether the return code is zero; [None]
      when the call raises. *)
  run_tool : list string -> string -> list Byte.byte -> option bool;
  (** Whether the operating system lets the program write to a path. *)
  writable : gmap string (list Byte.byte) -> string -> bool
}.

(** A temporary file is created under a name no file has. *)
Definition fresh_temp (ext : External) : Prop :=
  forall fs suffix tmp_path, mktemp ext fs suffix = Some tmp_path -> fs !! tmp_path = None.

Section Pipeline.

Variable ext : External.

(** [validate_syntax(file_path, content)]: every exception is caught and
    turned into [False]; the temporary file is left behind. *)
Definition validate_syntax (fs : gmap string (list Byte.byte)) (file_path : string)
    (content : list N) : bool * gmap string (list Byte.byte) :=
  let suffix := suffix_of ext file_path in
  if (suffix =? ".py")%string then (ast_parse_ok ext content, fs)
  else
    match mktemp ext fs suffix with
    | None => (false, fs)
    | Some tmp_path =>
        match utf8_encode ext content with
        | None => (false, <[tmp_path := []]> fs)
        | Some data =>
            let fs' := <[tmp_path := data]> fs in
            let returncode_is_0 (command : list string) :=
              match run_tool ext command suffix data with
              | Some b => b
              | None => false
              end in
            if suffix_in suffix [".js"; ".ts"]%string then
              (returncode_is_0 ["node"; "--check"]%string, fs')
            else if (suffix =? ".php")%string then
              (returncode_is_0 ["php"; "-l"]%string, fs')
            else if suffix_in suffix [".c"; ".cpp"]%string then
              (returncode_is_0 ["gcc"; "-fsyntax-only"]%string, fs')
            else (true, fs')
        end
    end.

(** [file_path.with_suffix(file_path.suffix + ".bak")] *)
Definition backup_path (file_path : string) : string := (file_path ++ ".bak")%string.

(** [shutil.copy(src, dst)] *)
Definition copy (fs : gmap string (list Byte.byte)) (src dst : string)
    : string + gmap string (list Byte.byte) :=
  match fs !! src with
  | None => inl ("No such file or directory: " ++ src)%string
  | Some data =>
      if writable ext fs dst then inr (<[dst := data]> fs)
      else inl ("Permission denied: " ++ dst)%string
  end.

(** [file_path.write_text(cleaned, encoding="utf-8")] *)
Definition write_text (fs : gmap string (list Byte.byte)) (file_path : string)
    (text : list N) : string + gmap string (list Byte.byte) :=
  match utf8_encode ext text with
  | None => inl "codec can't encode characters"%string
  | Some data =>
      if writable ext fs file_path then inr (<[file_path := data]> fs)
      else inl ("Permission denied: " ++ file_path)%string
  end.

Definition report_error (file_path e : string) : string :=
  ("[ERROR] " ++ file_path ++ " - " ++ e)%string.

(** [process_file(file_path, backup, validate, dry_run)]: the outcome string
    and the file system it leaves. *)
Definition process_file (fs : gmap string (list Byte.byte)) (file_path : string)
    (backup validate dry_run : bool) : string * gmap string (list Byte.byte) :=
  match fs !! file_path with
  | None => (report_error file_path ("No such file or directory: " ++ file_path), fs)
  | Some original =>
      let content := utf8_decode_ignore ext original in
      match remove_comments_safely content (suffix_of ext file_path) with
      | None => (report_error file_path "string index out of range", fs)
      | Some cleaned =>
          let '(valid, fs1) :=
            if validate then validate_syntax fs file_path cleaned else (true, fs) in
          if validate && negb valid then
            ("[SKIPPED - INVALID SYNTAX] " ++ file_path, fs1)%string
          else if dry_run then ("[DRY RUN] " ++ file_path, fs1)%string
          else
            let copied :=
              if backup then copy fs1 file_path (backup_path file_path) else inr fs1 in
            match copied with
            | inl e => (report_error file_path e, fs1)
            | inr fs2 =>
                match write_text fs2 file_path cleaned with
                | inl e => (report_error file_path e, fs2)
                | inr fs3 => ("[OK] " ++ file_path, fs3)%string
                end
            end
      end
  end.

(** The results [main] prints: one outcome per file, in the order of
    [files]; the effects of the workers on the file system are taken one
    file after the other. *)
Fixpoint process_all (fs : gmap string (list Byte.byte)) (files : list string)
    (backup validate dry_run : bool) : list string * gmap string (list Byte.byte) :=
  match files with
  | [] => ([], fs)
  | file_path :: files' =>
      let '(r, fs1) := process_file fs file_path backup validate dry_run in
      let '(rs, fs2) := process_all fs1 files' backup validate dry_run in
      (r :: rs, fs2)
  end.

End Pipeline.

(** A world for examples: the suffix is everything from the last dot on,
    text is ASCII, Python's parser rejects everything, and temporary files
    get a name that is not in use. *)
Definition example_world : External :=
  mkExternal
    (fun p => match index 0 "." p with
              | Some k => substring k (String.length p - k) p
              | None => EmptyString
              end)
    (map (fun b => N_of_ascii (ascii_of_byte b)))
    (fun l => Some (map (fun c => byte_of_ascii (ascii_of_N c)) l))
    (fun _ => false)
    (fun fs suffix => Some (fresh_string ("/tmp/tmp" ++ suffix) fs))
    (fun _ _ _ => Some true)
    (fun _ _ => true).

(** One Python file holding the three characters of [x#y]. *)
Definition example_files : gmap string (list Byte.byte) :=
  {[ "a.py"%string := [Byte.x78; Byte.x23; Byte.x79] ]}.

(** ** Further vocabulary *)

(** Number of occurrences of the character [c] in a text. *)
Fixpoint count_char (c : N) (l : list N) : nat :=
  match l with
  | [] => 0
  | d :: l' => (if (d =? c)%N then 1 else 0) + count_char c l'
  end.

(** The text holds no quote character. *)
Definition quote_free (l : list N) : Prop :=
  forall k c, l !! k = Some c -> is_quote c = false.

(** No comment of the language opens anywhere in the text. *)
Definition opener_free (l : list N) (suffix : string) : Prop :=
  forall k, opens_line_comment l suffix k = None /\
            opens_block_comment l suffix k = false /\
            (suffix_in suffix markup_suffixes = true -> py_slice l k 4 <> str "<!--").

(** The delimiter [q] stands at index [k] and is not behind a backslash. *)
Definition string_close_at (content : list N) (q : N) (k : nat) : Prop :=
  content !! k = Some q /\ content !! (k - 1) <> Some backslash.

(** A comment opener of the language stands at the head of the text. *)
Definition opener_head (suffix : string) (l : list N) : bool :=
  match l with
  | [] => false
  | c :: t =>
      (suffix =? ".py")%string && (c =? hash)%N
      || suffix_in suffix clike_suffixes && (c =? slash)%N && is_char (head t) slash
      || (suffix_in suffix clike_suffixes || (suffix =? ".css")%string)
         && (c =? slash)%N && is_char (head t) star
  end.

Fixpoint no_opener (suffix : string) (l : list N) : bool :=
  match l with
  | [] => true
  | c :: t => negb (opener_head suffix (c :: t)) && no_opener suffix t
  end.


(** ** Selection of the files *)

Definition DEFAULT_EXTENSIONS : list string :=
  [".py"; ".js"; ".ts"; ".jsx"; ".tsx";
   ".java"; ".c"; ".cpp"; ".h"; ".hpp";
   ".go"; ".php"; ".css"; ".html"; ".htm"]%string.

Definition EXCLUDED_DIRS : list string :=
  ["vendor"; "node_modules"; ".git"; "venv"; "__pycache__"; "storage";
   "bootstrap"; "dist"; "build"; ".next"; "out"; "coverage"]%string.

(** The directory tree as [pathlib] shows it: the paths [root.rglob] yields
    for the pattern that matches everything, whether a path is a regular
    file, and the components of a path. *)
Record Tree := mkTree {
  rglob : string -> list string;
  is_file : string -> bool;
  parts : string -> list string
}.

(** [any(part in EXCLUDED_DIRS for part in path.parts)] *)
Definition in_excluded_dir (tree : Tree) (path : string) : bool :=
  existsb (fun part => existsb (String.eqb part) EXCLUDED_DIRS) (parts tree path).

(** [iter_files(root, extensions)] *)
Definition iter_files (ext : External) (tree : Tree) (root : string)
    (extensions : list string) : list string :=
  fold_left
    (fun files path =>
       if negb (is_file tree path) then files
       else if negb (suffix_in (suffix_of ext path) extensions) then files
       else if in_excluded_dir tree path then files
       else files ++ [path])
    (rglob tree root) [].

(** A path passes the three tests of the loop of [iter_files]. *)
Definition selected (ext : External) (tree : Tree) (extensions : list string)
    (path : string) : bool :=
  is_file tree path && suffix_in (suffix_of ext path) extensions
  && negb (in_excluded_dir tree path).

(** Two files for examples: a Python file and a style sheet. *)
Definition example_files2 : gmap string (list Byte.byte) :=
  <[ "b.css"%string := [Byte.x61; Byte.x7b; Byte.x7d] ]> example_files.

(** A tree for examples: one Python file below a directory named build. *)
Definition example_tree : Tree :=
  mkTree (fun _ => ["build/a.py"]%string)
         (fun _ => true)
         (fun p => if (p =? "build")%string then ["build"]%string
                   else ["build"; "a.py"]%string).

Example scenario_python :
  remove_comments_safely (str "x = 1  # set x" ++ [newline] ++ str "y = 2") ".py"
  = Some (str "x = 1  " ++ [newline] ++ str "y = 2").
Proof. vm_compute. reflexivity. Qed.

Example scenario_clike_string :
  remove_comments_safely
    (str "a = " ++ [dquote] ++ str "//not a comment" ++ [dquote] ++ str "; // real") ".js"
  = Some (str "a = " ++ [dquote] ++ str "//not a comment" ++ [dquote] ++ str "; ").
Proof. vm_compute. reflexivity. Qed.

Example scenario_clike_block :
  remove_comments_safely (str "/* drop" ++ [newline] ++ str "me */code") ".c"
  = Some (str "code").
Proof. vm_compute. reflexivity. Qed.

Example scenario_markup :
  remove_comments_safely (str "<!-- hi --><p>ok</p>") ".html" = Some (str "<p>ok</p>").
Proof. vm_compute. reflexivity. Qed.

(** ** Indexing lemmas *)

Lemma py_index_nat (s : list N) (k : nat) :
  k < length s -> py_index s (Z.of_nat k) = s !! k.
Proof.
  intros Hk. unfold py_index.
  replace ((0 <=? Z.of_nat k)%Z) with true by (symmetry; apply Z.leb_le; lia).
  replace ((Z.of_nat k <? Z.of_nat (length s))%Z) with true
    by (symmetry; apply Z.ltb_lt; lia).
  simpl. now rewrite Nat2Z.id.
Qed.

Lemma py_index_pred (s : list N) (k : nat) :
  1 <= k -> k <= length s -> py_index s (Z.of_nat k - 1) = s !! (k - 1).
Proof.
  intros H1 H2. replace (Z.of_nat k - 1)%Z with (Z.of_nat (k - 1)) by lia.
  apply py_index_nat. lia.
Qed.

Lemma lookup_lt_is_Some' (s : list N) (k : nat) :
  k < length s -> exists c, s !! k = Some c.
Proof. intros H. destruct (lookup_lt_is_Some_2 s k H) as [c Hc]. eauto. Qed.

Lemma starts_with_length (pat s : list N) :
  starts_with pat s = true -> length pat <= length s.
Proof.
  revert s. induction pat as [|p pat IH]; intros [|c s]; simpl; try lia; try discriminate.
  intros H. apply andb_prop in H as [_ H]. apply IH in H. lia.
Qed.

Lemma find_at_bounds (pat s : list N) (start e : nat) :
  find_at pat s start = Some e ->
  start <= e /\ e + length pat <= start + length s /\ starts_with pat (drop (e - start) s) = true.
Proof.
  revert start. induction s as [|c s IH]; intros start; simpl.
  - destruct (starts_with pat []) eqn:E; [|discriminate].
    intros [= <-]. destruct pat; [|discriminate]. rewrite Nat.sub_diag. simpl.
    repeat split; lia.
  - destruct (starts_with pat (c :: s)) eqn:E.
    + intros [= <-]. rewrite Nat.sub_diag. split; [lia|]. split; [|exact E].
      apply starts_with_length in E. simpl in E. lia.
    + intros H. apply IH in H as (H1 & H2 & H3). split; [lia|]. split; [lia|].
      replace (e - start) with (S (e - S start)) by lia. exact H3.
Qed.

Lemma py_find_bounds (s pat : list N) (start e : nat) :
  py_find s pat start = Some e -> start <= e /\ e + length pat <= length s.
Proof.
  unfold py_find. destruct (start <=? length s) eqn:E; [|discriminate].
  apply Nat.leb_le in E. intros H. apply find_at_bounds in H as (H1 & H2 & _).
  rewrite length_drop in H2. lia.
Qed.

(** ** Invariant of the loop *)

Section Invariant.

Variable content : list N.
Variable suffix : string.

Lemma Inv_init : Inv content init.
Proof.
  constructor; simpl; try lia; try discriminate; try reflexivity.
Qed.

Lemma sublist_take_snoc (r : list N) (k : nat) (c : N) :
  content !! k = Some c -> sublist r (take k content) ->
  sublist (r ++ [c]) (take (k + 1) content).
Proof.
  intros Hc Hr. rewrite Nat.add_1_r. rewrite (take_S_r _ _ _ Hc).
  apply sublist_app; [exact Hr | reflexivity].
Qed.

Lemma sublist_take_le (r : list N) (k k' : nat) :
  k <= k' -> sublist r (take k content) -> sublist r (take k' content).
Proof.
  intros Hk Hr. etransitivity; [exact Hr|].
  replace k' with (k + (k' - k)) by lia. rewrite <- take_take_drop.
  apply sublist_inserts_r. reflexivity.
Qed.

End Invariant.

(** ** One iteration *)

Section Step.

Variable content : list N.
Variable suffix : string.

Lemma is_char_next (k : nat) (c : N) :
  is_char (if k <? length content then content !! k else None) c = true ->
  k < length content /\ content !! k = Some c.
Proof.
  destruct (k <? length content) eqn:E; [|discriminate].
  apply Nat.ltb_lt in E. destruct (content !! k) as [d|]; [|discriminate].
  simpl. intros H. apply N.eqb_eq in H. subst. auto.
Qed.

Lemma advance_lt (st st' : State) : advance content st st' -> i st < i st'.
Proof.
  intros [H|[H|(e & He & H)]]; try lia.
  apply py_find_bounds in He. lia.
Qed.

Ltac adv :=
  first [ left; reflexivity
        | right; left; reflexivity
        | right; right; eexists; split; [eassumption | reflexivity] ].

Ltac inv_fields :=
  constructor; simpl in *;
  [ try lia
  | try reflexivity; try assumption
  | try (intros; discriminate); try assumption
  | try assumption ].

(** The iteration never raises, keeps the invariant, moves the index
    forward and only appends to [result]. *)
Lemma step_spec (st : State) :
  Inv content st -> i st < length content ->
  exists st', step content suffix st = Some st' /\ Inv content st' /\ advance content st st' /\
              result st `prefix_of` result st'.
Proof.
  intros [Hb Hm Hs Hsub] Hlt.
  destruct (lookup_lt_is_Some' content (i st) Hlt) as [c Hc].
  unfold step. rewrite (py_index_nat _ _ Hlt), Hc. simpl.
  destruct st as [r k ins sc inb inl]; simpl in *.
  set (next_char := if k + 1 <? length content then content !! (k + 1) else None).
  pose proof (is_char_next (k + 1)) as Hnext. fold next_char in Hnext.
  destruct inl.
  { destruct inb; [discriminate|]. destruct ins; [discriminate|].
    destruct (c =? newline)%N; eexists; (split; [reflexivity|]);
      (split; [|split; [adv|simpl]]).
    - inv_fields. by apply sublist_take_snoc.
    - by apply prefix_app_r.
    - inv_fields. apply (sublist_take_le _ _ k); [lia|assumption].
    - reflexivity. }
  destruct inb.
  { destruct ins; [discriminate|].
    destruct ((c =? star)%N && is_char next_char slash) eqn:E; eexists; (split; [reflexivity|]);
      (split; [|split; [adv|simpl; reflexivity]]).
    - apply andb_prop in E as [_ E]. apply Hnext in E as [E _].
      inv_fields. apply (sublist_take_le _ _ k); [lia|assumption].
    - inv_fields. apply (sublist_take_le _ _ k); [lia|assumption]. }
  destruct ins.
  { destruct (Hs eq_refl) as (H1 & q & -> & Hq).
    rewrite (py_index_pred _ _ H1 Hb).
    destruct (lookup_lt_is_Some' content (k - 1) ltac:(lia)) as [p Hp]. rewrite Hp. simpl.
    destruct ((q =? c)%N && negb (p =? backslash)%N); eexists; (split; [reflexivity|]);
      (split; [|split; [adv|simpl; by apply prefix_app_r]]).
    - inv_fields. by apply sublist_take_snoc.
    - inv_fields. + intros _. split; [lia|eauto]. + by apply sublist_take_snoc. }
  destruct (is_quote c) eqn:Eq.
  { eexists; split; [reflexivity|]. split; [|split; [adv|simpl; by apply prefix_app_r]].
    inv_fields. - intros _. split; [lia|eauto]. - by apply sublist_take_snoc. }
  destruct ((suffix =? ".py")%string && (c =? hash)%N).
  { eexists; split; [reflexivity|]. split; [|split; [adv|simpl; reflexivity]].
    inv_fields. apply (sublist_take_le _ _ k); [lia|assumption]. }
  destruct (suffix_in suffix clike_suffixes && (c =? slash)%N && is_char next_char slash) eqn:E1.
  { apply andb_prop in E1 as [_ E1]. apply Hnext in E1 as [E1 _].
    eexists; split; [reflexivity|]. split; [|split; [adv|simpl; reflexivity]].
    inv_fields. apply (sublist_take_le _ _ k); [lia|assumption]. }
  destruct (suffix_in suffix clike_suffixes && (c =? slash)%N && is_char next_char star) eqn:E2.
  { apply andb_prop in E2 as [_ E2]. apply Hnext in E2 as [E2 _].
    eexists; split; [reflexivity|]. split; [|split; [adv|simpl; reflexivity]].
    inv_fields. apply (sublist_take_le _ _ k); [lia|assumption]. }
  destruct ((suffix =? ".css")%string && (c =? slash)%N && is_char next_char star) eqn:E3.
  { apply andb_prop in E3 as [_ E3]. apply Hnext in E3 as [E3 _].
    eexists; split; [reflexivity|]. split; [|split; [adv|simpl; reflexivity]].
    inv_fields. apply (sublist_take_le _ _ k); [lia|assumption]. }
  assert (Hdef : exists st', Some (emit_default (mkState r k false sc false false) c) = Some st' /\
              Inv content st' /\ advance content (mkState r k false sc false false) st' /\
              r `prefix_of` result st').
  { eexists; split; [reflexivity|]. split; [|split; [adv|simpl; by apply prefix_app_r]].
    inv_fields. by apply sublist_take_snoc. }
  destruct (suffix_in suffix markup_suffixes && bool_decide _); [|exact Hdef].
  destruct (py_find content (str "-->") (k + 4)) as [e|] eqn:Ef; [|exact Hdef].
  destruct (py_find_bounds _ _ _ _ Ef) as [Ef1 Ef2]. simpl in Ef2.
  eexists; split; [reflexivity|]. split; [|split; [adv|simpl; reflexivity]].
  inv_fields. apply (sublist_take_le _ _ k); [lia|assumption].
Qed.

End Step.

(** ** The whole loop *)

Section Run.

Variable content : list N.
Variable suffix : string.

Lemma loop_exit (fuel : nat) (st : State) :
  length content <= i st -> loop content suffix fuel st = Some st.
Proof.
  intros H. destruct fuel; simpl;
    (replace (i st <? length content) with false
       by (symmetry; apply Nat.ltb_ge; lia)); reflexivity.
Qed.

Lemma loop_body (fuel : nat) (st st' : State) :
  i st < length content -> step content suffix st = Some st' ->
  loop content suffix (S fuel) st = loop content suffix fuel st'.
Proof.
  intros H Hs. simpl. apply Nat.ltb_lt in H. rewrite H, Hs. reflexivity.
Qed.

(** With a budget of at least [length content - i] iterations the loop runs
    to its exit. *)
Lemma loop_total (fuel : nat) (st : State) :
  Inv content st -> length content - i st <= fuel ->
  exists fin, loop content suffix fuel st = Some fin /\ Inv content fin /\
              i fin = length content /\ result st `prefix_of` result fin.
Proof.
  revert st. induction fuel as [|fuel IH]; intros st HI Hf.
  - exists st. pose proof (inv_bound _ _ HI). split; [apply loop_exit; lia|].
    split; [assumption|split; [lia|reflexivity]].
  - destruct (Nat.lt_ge_cases (i st) (length content)) as [Hlt|Hge].
    + destruct (step_spec content suffix st HI Hlt) as (st' & Hs & HI' & Ha & Hp).
      apply advance_lt in Ha. rewrite (loop_body _ _ _ Hlt Hs).
      destruct (IH st' HI' ltac:(lia)) as (fin & Hl & HIf & Hi & Hpf).
      exists fin. split; [assumption|]. split; [assumption|]. split; [assumption|].
      etransitivity; eassumption.
    + exists st. pose proof (inv_bound _ _ HI). split; [apply loop_exit; lia|].
      split; [assumption|split; [lia|reflexivity]].
Qed.

Lemma loop_more_fuel (fuel fuel' : nat) (st fin : State) :
  loop content suffix fuel st = Some fin -> fuel <= fuel' ->
  loop content suffix fuel' st = Some fin.
Proof.
  revert fuel' st. induction fuel as [|fuel IH]; intros fuel' st H Hle.
  - simpl in H. destruct (i st <? length content) eqn:E; [discriminate|].
    apply Nat.ltb_ge in E. rewrite loop_exit by lia. exact H.
  - simpl in H. destruct (i st <? length content) eqn:E.
    + destruct fuel' as [|fuel']; [lia|]. simpl. rewrite E.
      destruct (step content suffix st) as [st'|]; [|discriminate]. simpl in *.
      apply IH; [assumption | lia].
    + apply Nat.ltb_ge in E. rewrite loop_exit by lia. exact H.
Qed.

Lemma iter_Inv (n : nat) (st st' : State) :
  Inv content st -> iter content suffix n st = Some st' -> Inv content st'.
Proof.
  revert st. induction n as [|n IH]; intros st HI H; simpl in H.
  - congruence.
  - destruct (i st <? length content) eqn:E; [|discriminate].
    apply Nat.ltb_lt in E.
    destruct (step_spec content suffix st HI E) as (s1 & Hs & HI1 & _).
    rewrite Hs in H. simpl in H. eauto.
Qed.

Lemma reachable_Inv (st : State) : reachable content suffix st -> Inv content st.
Proof. intros [n Hn]. eapply iter_Inv; [apply Inv_init | exact Hn]. Qed.

Lemma reachable_init : reachable content suffix init.
Proof. exists 0. reflexivity. Qed.

Lemma iter_snoc (n : nat) (st st' st'' : State) :
  iter content suffix n st = Some st' -> i st' < length content ->
  step content suffix st' = Some st'' -> iter content suffix (S n) st = Some st''.
Proof.
  revert st. induction n as [|n IH]; intros st H Hlt Hs.
  - simpl in H. injection H as ->. simpl. apply Nat.ltb_lt in Hlt. rewrite Hlt, Hs. reflexivity.
  - change (iter content suffix (S n) st) with
      (if i st <? length content
       then st1 ← step content suffix st; iter content suffix n st1 else None) in H.
    change (iter content suffix (S (S n)) st) with
      (if i st <? length content
       then st1 ← step content suffix st; iter content suffix (S n) st1 else None).
    destruct (i st <? length content); [|discriminate].
    destruct (step content suffix st) as [s1|]; [|discriminate]. simpl in *. eauto.
Qed.

Lemma reachable_step (st st' : State) :
  reachable content suffix st -> i st < length content ->
  step content suffix st = Some st' -> reachable content suffix st'.
Proof. intros [n Hn] Hlt Hs. exists (S n). eapply iter_snoc; eassumption. Qed.

Lemma iter_loop (n fuel : nat) (st st' : State) :
  iter content suffix n st = Some st' ->
  loop content suffix (n + fuel) st = loop content suffix fuel st'.
Proof.
  revert st. induction n as [|n IH]; intros st H; simpl in H.
  - injection H as ->. reflexivity.
  - destruct (i st <? length content) eqn:E; [|discriminate].
    destruct (step content suffix st) as [s1|] eqn:Hs; [|discriminate]. simpl in H.
    apply Nat.ltb_lt in E. change (S n + fuel) with (S (n + fuel)).
    rewrite (loop_body _ _ _ E Hs). eauto.
Qed.

(** The output of the function is the output of the loop resumed at any
    state the loop passes through; that state's [result] is a prefix of it. *)
Lemma reachable_output (st : State) :
  reachable content suffix st ->
  exists fin, loop content suffix (length content - i st) st = Some fin /\
              remove_comments_safely content suffix = Some (result fin) /\
              i fin = length content /\ Inv content fin /\
              result st `prefix_of` result fin.
Proof.
  intros Hr. pose proof (reachable_Inv _ Hr) as HI. destruct Hr as [n Hn].
  destruct (loop_total (length content - i st) st HI (Nat.le_refl _))
    as (fin & Hl & HIf & Hi & Hp).
  exists fin. split; [assumption|]. split; [|repeat (split; [assumption|]); assumption].
  unfold remove_comments_safely.
  destruct (loop_total (length content) init (Inv_init content) ltac:(simpl; lia))
    as (fin0 & Hl0 & _).
  pose proof (iter_loop n (length content - i st) _ _ Hn) as He. rewrite Hl in He.
  pose proof (loop_more_fuel _ (n + length content) _ _ He ltac:(lia)) as H1.
  pose proof (loop_more_fuel _ (n + length content) _ _ Hl0 ltac:(lia)) as H2.
  rewrite Hl0. simpl. congruence.
Qed.

End Run.

(** ** The branches of the loop body, one equation each *)

Section Branches.

Variable content : list N.
Variable suffix : string.

Lemma next_char_lookup (k : nat) :
  (if k <? length content then content !! k else None) = content !! k.
Proof.
  destruct (k <? length content) eqn:E; [reflexivity|].
  apply Nat.ltb_ge in E. symmetry. now apply lookup_ge_None.
Qed.

Lemma py_index_lookup (k : nat) (c : N) :
  content !! k = Some c -> py_index content (Z.of_nat k) = Some c.
Proof.
  intros H. rewrite py_index_nat; [exact H|]. eapply lookup_lt_Some; eassumption.
Qed.

Ltac enter_step Hc :=
  unfold step; rewrite (py_index_lookup _ _ Hc); simpl; rewrite next_char_lookup.

Lemma step_line_comment (st : State) (c : N) :
  in_line_comment st = true -> content !! i st = Some c ->
  step content suffix st =
  Some (if (c =? newline)%N
        then mkState (result st ++ [c]) (i st + 1) (in_string st) (string_char st)
                     (in_block_comment st) false
        else mkState (result st) (i st + 1) (in_string st) (string_char st)
                     (in_block_comment st) true).
Proof.
  intros Hl Hc. enter_step Hc. rewrite Hl. destruct (c =? newline)%N; reflexivity.
Qed.

Lemma step_block_comment (st : State) (c : N) :
  in_line_comment st = false -> in_block_comment st = true ->
  content !! i st = Some c ->
  step content suffix st =
  Some (if (c =? star)%N && is_char (content !! (i st + 1)) slash
        then mkState (result st) (i st + 2) (in_string st) (string_char st)
                     false false
        else mkState (result st) (i st + 1) (in_string st) (string_char st)
                     true false).
Proof.
  intros Hl Hb Hc. enter_step Hc. rewrite Hl, Hb.
  destruct ((c =? star)%N && _); reflexivity.
Qed.

Lemma step_string (st : State) (c p : N) :
  in_line_comment st = false -> in_block_comment st = false ->
  in_string st = true -> 1 <= i st ->
  content !! i st = Some c -> content !! (i st - 1) = Some p ->
  step content suffix st =
  Some (mkState (result st ++ [c]) (i st + 1)
                (negb (is_char (string_char st) c && negb (p =? backslash)%N))
                (string_char st) false false).
Proof.
  intros Hl Hb Hs Hi Hc Hp. enter_step Hc. rewrite Hl, Hb, Hs.
  rewrite py_index_pred, Hp; [|lia|].
  - simpl. destruct (is_char (string_char st) c && _); reflexivity.
  - apply lookup_lt_Some in Hc. lia.
Qed.

(** The state is in code mode when none of the three flags is set. *)
Lemma step_code (st : State) (c : N) :
  code_mode st = true -> content !! i st = Some c ->
  step content suffix st =
  let next_char := content !! (i st + 1) in
  if is_quote c then
    Some (mkState (result st ++ [c]) (i st + 1) true (Some c) false false)
  else if (suffix =? ".py")%string && (c =? hash)%N then
    Some (mkState (result st) (i st + 1) false (string_char st) false true)
  else if suffix_in suffix clike_suffixes && (c =? slash)%N && is_char next_char slash then
    Some (mkState (result st) (i st + 2) false (string_char st) false true)
  else if (suffix_in suffix clike_suffixes || (suffix =? ".css")%string)
          && (c =? slash)%N && is_char next_char star then
    Some (mkState (result st) (i st + 2) false (string_char st) true false)
  else if suffix_in suffix markup_suffixes
          && bool_decide (py_slice content (i st) 4 = str "<!--") then
    match py_find content (str "-->") (i st + 4) with
    | Some end_ => Some (mkState (result st) (end_ + 3) false (string_char st) false false)
    | None => Some (mkState (result st ++ [c]) (i st + 1) false (string_char st) false false)
    end
  else Some (mkState (result st ++ [c]) (i st + 1) false (string_char st) false false).
Proof.
  unfold code_mode. intros Hm Hc.
  destruct (in_string st) eqn:Hs; [discriminate|].
  destruct (in_block_comment st) eqn:Hb; [discriminate|].
  destruct (in_line_comment st) eqn:Hl; [discriminate|].
  enter_step Hc. rewrite Hs, Hb, Hl. unfold emit_default. rewrite Hs, Hb, Hl.
  destruct (is_quote c); [reflexivity|].
  destruct ((suffix =? ".py")%string && (c =? hash)%N); [reflexivity|].
  destruct (suffix_in suffix clike_suffixes), (suffix =? ".css")%string,
    (c =? slash)%N, (is_char (content !! (i st + 1)) slash),
    (is_char (content !! (i st + 1)) star); reflexivity.
Qed.

End Branches.

(** ** Termination and the shape of the output *)

Section Output.

Variable content : list N.
Variable suffix : string.

(** A property that holds initially and is kept by every iteration holds of
    every state the loop passes through. *)
Lemma reachable_inductive (P : State -> Prop) :
  P init ->
  (forall st st', reachable content suffix st -> P st -> i st < length content ->
                  step content suffix st = Some st' -> P st') ->
  forall st, reachable content suffix st -> P st.
Proof.
  intros H0 Hstep st [n Hn].
  assert (G : forall m s, reachable content suffix s -> P s ->
                          iter content suffix m s = Some st -> P st).
  { clear n Hn. induction m as [|m IH]; intros s Hr Hs H; simpl in H.
    - congruence.
    - destruct (i s <? length content) eqn:E; [|discriminate].
      apply Nat.ltb_lt in E.
      destruct (step content suffix s) as [s1|] eqn:E1; [|discriminate]. simpl in H.
      apply (IH s1); [eapply reachable_step; eassumption | eauto | exact H]. }
  apply (G n init); [apply reachable_init | exact H0 | exact Hn].
Qed.

Lemma iter_count (m : nat) (st : State) :
  Inv content st -> length content - i st <= m ->
  exists n fin, n <= m /\ iter content suffix n st = Some fin /\ length content <= i fin.
Proof.
  revert st. induction m as [|m IH]; intros st HI Hm.
  - exists 0, st. split; [lia|]. split; [reflexivity|lia].
  - destruct (Nat.lt_ge_cases (i st) (length content)) as [Hlt|Hge].
    + destruct (step_spec content suffix st HI Hlt) as (st' & Hs & HI' & Ha & _).
      apply advance_lt in Ha.
      destruct (IH st' HI' ltac:(lia)) as (n & fin & Hn & Hit & Hfin).
      exists (S n), fin. split; [lia|]. split; [|exact Hfin].
      simpl. apply Nat.ltb_lt in Hlt. rewrite Hlt, Hs. exact Hit.
    + exists 0, st. split; [lia|]. split; [reflexivity|lia].
Qed.

End Output.

Lemma StronglySorted_lt_shift (ps : list nat) :
  StronglySorted lt ps -> StronglySorted lt (map S ps).
Proof.
  induction 1 as [|p ps Hs IH Hall]; simpl; constructor; [exact IH|].
  apply Forall_map. eapply Forall_impl; [exact Hall|]. simpl. intros; lia.
Qed.

Lemma sublist_positions (out l : list N) :
  sublist out l -> at_increasing_positions out l.
Proof.
  induction 1 as [|x l1 l2 _ (ps & Hs & Hf)|x l1 l2 _ (ps & Hs & Hf)].
  - exists []. split; constructor.
  - exists (0 :: map S ps). split.
    + constructor; [now apply StronglySorted_lt_shift|].
      apply Forall_map. apply Forall_forall. simpl. intros; lia.
    + constructor; [reflexivity|]. apply Forall2_fmap_l.
      eapply Forall2_impl; [exact Hf|]. auto.
  - exists (map S ps). split; [now apply StronglySorted_lt_shift|].
    apply Forall2_fmap_l. eapply Forall2_impl; [exact Hf|]. auto.
Qed.


(** ** Comments and strings as segments of the input *)

Section Segments.

Variable content : list N.
Variable suffix : string.

Lemma iter_S (n : nat) (st st' : State) :
  i st < length content -> step content suffix st = Some st' ->
  iter content suffix (S n) st = iter content suffix n st'.
Proof. intros H Hs. simpl. apply Nat.ltb_lt in H. rewrite H, Hs. reflexivity. Qed.

(** A line comment is skipped up to its newline, which is emitted. *)
Lemma line_comment_skip (d : nat) (st : State) (j : nat) :
  j = i st + d -> in_line_comment st = true ->
  content !! j = Some newline ->
  (forall k, i st <= k < j -> content !! k <> Some newline) ->
  iter content suffix (S d) st =
  Some (mkState (result st ++ [newline]) (j + 1) (in_string st) (string_char st)
                (in_block_comment st) false).
Proof.
  revert st. induction d as [|d IH]; intros st Hj Hl Hnl Hno.
  - rewrite Nat.add_0_r in Hj. subst j.
    pose proof (lookup_lt_Some _ _ _ Hnl) as Hlt.
    rewrite (iter_S 0 st _ Hlt (step_line_comment content suffix st _ Hl Hnl)).
    reflexivity.
  - pose proof (lookup_lt_Some _ _ _ Hnl) as Hlt.
    destruct (lookup_lt_is_Some' content (i st) ltac:(lia)) as [c Hc].
    assert (Hne : (c =? newline)%N = false).
    { apply N.eqb_neq. intros ->. apply (Hno (i st)); [lia | exact Hc]. }
    rewrite (iter_S (S d) st _ ltac:(lia) (step_line_comment content suffix st _ Hl Hc)).
    rewrite Hne. rewrite (IH _); simpl; try reflexivity; try assumption; try lia.
    intros k Hk. apply Hno. lia.
Qed.

(** A line comment without a newline runs to the end of the input and
    emits nothing. *)
Lemma line_comment_eof (fuel : nat) (st : State) :
  in_line_comment st = true ->
  (forall k, i st <= k -> content !! k <> Some newline) ->
  length content - i st <= fuel ->
  exists fin, loop content suffix fuel st = Some fin /\ result fin = result st.
Proof.
  revert st. induction fuel as [|fuel IH]; intros st Hl Hno Hf.
  - exists st. split; [apply loop_exit; lia | reflexivity].
  - destruct (Nat.lt_ge_cases (i st) (length content)) as [Hlt|Hge].
    + destruct (lookup_lt_is_Some' content (i st) Hlt) as [c Hc].
      assert (Hne : (c =? newline)%N = false).
      { apply N.eqb_neq. intros ->. apply (Hno (i st)); [lia | exact Hc]. }
      rewrite (loop_body _ _ _ _ _ Hlt (step_line_comment content suffix st _ Hl Hc)).
      rewrite Hne.
      destruct (IH (mkState (result st) (i st + 1) (in_string st) (string_char st)
                            (in_block_comment st) true)) as (fin & H1 & H2);
        simpl; try reflexivity; try lia.
      * intros k Hk. apply Hno. lia.
      * exists fin. split; assumption.
    + exists st. split; [apply loop_exit; lia | reflexivity].
Qed.

Lemma block_close_test (st : State) (c : N) :
  content !! i st = Some c ->
  (c =? star)%N && is_char (content !! (i st + 1)) slash = true <->
  content !! i st = Some star /\ content !! (i st + 1) = Some slash.
Proof.
  intros Hc. split.
  - intros H. apply andb_prop in H as [H1 H2]. apply N.eqb_eq in H1. subst c.
    split; [exact Hc|]. destruct (content !! (i st + 1)) as [d|]; [|discriminate].
    simpl in H2. apply N.eqb_eq in H2. now subst.
  - intros [H1 H2]. rewrite Hc in H1. injection H1 as ->. rewrite H2. reflexivity.
Qed.

(** A block comment is skipped up to and including the first closing
    marker, and nothing is emitted. *)
Lemma block_comment_skip (d : nat) (st : State) (j : nat) :
  j = i st + d -> in_line_comment st = false -> in_block_comment st = true ->
  content !! j = Some star -> content !! (j + 1) = Some slash ->
  (forall k, i st <= k < j ->
             ~ block_close_at content k) ->
  iter content suffix (S d) st =
  Some (mkState (result st) (j + 2) (in_string st) (string_char st) false false).
Proof.
  revert st. induction d as [|d IH]; intros st Hj Hl Hb H1 H2 Hno.
  - rewrite Nat.add_0_r in Hj. subst j.
    pose proof (lookup_lt_Some _ _ _ H1) as Hlt.
    rewrite (iter_S 0 st _ Hlt (step_block_comment content suffix st _ Hl Hb H1)).
    rewrite (proj2 (block_close_test st _ H1) (conj H1 H2)). reflexivity.
  - pose proof (lookup_lt_Some _ _ _ H1) as Hlt.
    destruct (lookup_lt_is_Some' content (i st) ltac:(lia)) as [c Hc].
    rewrite (iter_S (S d) st _ ltac:(lia) (step_block_comment content suffix st _ Hl Hb Hc)).
    destruct ((c =? star)%N && _) eqn:E.
    { apply (block_close_test st _ Hc) in E. exfalso. apply (Hno (i st)); [lia | exact E]. }
    rewrite (IH _); simpl; try reflexivity; try assumption; try lia.
    intros k Hk. apply Hno. lia.
Qed.

(** A block comment that is never closed runs to the end of the input. *)
Lemma block_comment_eof (fuel : nat) (st : State) :
  in_line_comment st = false -> in_block_comment st = true ->
  (forall k, i st <= k ->
             ~ block_close_at content k) ->
  length content - i st <= fuel ->
  exists fin, loop content suffix fuel st = Some fin /\ result fin = result st.
Proof.
  revert st. induction fuel as [|fuel IH]; intros st Hl Hb Hno Hf.
  - exists st. split; [apply loop_exit; lia | reflexivity].
  - destruct (Nat.lt_ge_cases (i st) (length content)) as [Hlt|Hge].
    + destruct (lookup_lt_is_Some' content (i st) Hlt) as [c Hc].
      rewrite (loop_body _ _ _ _ _ Hlt (step_block_comment content suffix st _ Hl Hb Hc)).
      destruct ((c =? star)%N && _) eqn:E.
      { apply (block_close_test st _ Hc) in E. exfalso. apply (Hno (i st)); [lia | exact E]. }
      destruct (IH (mkState (result st) (i st + 1) (in_string st) (string_char st)
                            true false)) as (fin & H1 & H2);
        simpl; try reflexivity; try lia.
      * intros k Hk. apply Hno. lia.
      * exists fin. split; assumption.
    + exists st. split; [apply loop_exit; lia | reflexivity].
Qed.

Lemma code_mode_flags (st : State) :
  code_mode st = true ->
  in_string st = false /\ in_block_comment st = false /\ in_line_comment st = false.
Proof.
  unfold code_mode. destruct (in_string st), (in_block_comment st), (in_line_comment st);
    simpl; intros H; try discriminate; auto.
Qed.

(** The loop's final state, reached after at most [length content]
    iterations, holds the return value. *)
Lemma run_final :
  exists n fin, n <= length content /\
    iter content suffix n init = Some fin /\ length content <= i fin /\
    remove_comments_safely content suffix = Some (result fin).
Proof.
  destruct (iter_count content suffix (length content) init (Inv_init content)
              ltac:(simpl; lia)) as (n & fin & Hn & Hit & Hfin).
  exists n, fin. split; [exact Hn|]. split; [exact Hit|]. split; [exact Hfin|].
  destruct (reachable_output content suffix fin (ex_intro _ n Hit))
    as (fin' & Hl & Hout & _).
  rewrite loop_exit in Hl by exact Hfin. congruence.
Qed.

(** The return value when the rest of the run emits nothing. *)
Lemma output_of_silent_rest (st : State) :
  reachable content suffix st ->
  (exists fin, loop content suffix (length content - i st) st = Some fin /\
               result fin = result st) ->
  remove_comments_safely content suffix = Some (result st).
Proof.
  intros Hr (fin & Hl & Hres).
  destruct (reachable_output content suffix st Hr) as (fin' & Hl' & Hout & _).
  rewrite Hout. congruence.
Qed.

End Segments.

(** ** Languages without a comment rule *)

Section Unrecognized.

Variable content : list N.
Variable suffix : string.
Hypothesis Hnone : recognized suffix = false.

Lemma unrecognized_flags :
  (suffix =? ".py")%string = false /\ suffix_in suffix clike_suffixes = false /\
  (suffix =? ".css")%string = false /\ suffix_in suffix markup_suffixes = false.
Proof.
  unfold recognized in Hnone.
  destruct (suffix =? ".py")%string, (suffix_in suffix clike_suffixes),
    (suffix =? ".css")%string, (suffix_in suffix markup_suffixes);
    simpl in Hnone; try discriminate; auto.
Qed.

(** Without a comment rule the loop never enters a comment and has emitted
    exactly the characters it has passed. *)
Lemma unrecognized_copies (st : State) :
  reachable content suffix st ->
  in_line_comment st = false /\ in_block_comment st = false /\
  result st = take (i st) content.
Proof.
  revert st.
  apply (reachable_inductive content suffix
           (fun st => in_line_comment st = false /\ in_block_comment st = false /\
                      result st = take (i st) content)).
  - simpl. auto.
  - intros st st' Hr (Hl & Hb & Hres) Hlt Hs.
    pose proof (reachable_Inv _ _ _ Hr) as HI.
    destruct (lookup_lt_is_Some' content (i st) Hlt) as [c Hc].
    assert (Hnext : take (i st + 1) content = result st ++ [c]).
    { rewrite Nat.add_1_r, (take_S_r _ _ _ Hc), Hres. reflexivity. }
    destruct (in_string st) eqn:Hstr.
    + destruct (inv_string _ _ HI Hstr) as (H1 & _).
      destruct (lookup_lt_is_Some' content (i st - 1) ltac:(lia)) as [p Hp].
      rewrite (step_string content suffix st c p Hl Hb Hstr H1 Hc Hp) in Hs.
      injection Hs as <-. simpl. auto.
    + assert (Hm : code_mode st = true) by (unfold code_mode; now rewrite Hstr, Hb, Hl).
      rewrite (step_code content suffix st c Hm Hc) in Hs.
      destruct unrecognized_flags as (E1 & E2 & E3 & E4).
      rewrite E1, E2, E3, E4 in Hs. simpl in Hs.
      destruct (is_quote c); injection Hs as <-; simpl; auto.
Qed.

End Unrecognized.


(** ** Comment openers *)

Section Openers.

Variable content : list N.
Variable suffix : string.

Lemma is_char_Some (o : option N) (c : N) : is_char o c = true <-> o = Some c.
Proof.
  destruct o as [d|]; simpl; [|split; discriminate].
  rewrite N.eqb_eq. split; congruence.
Qed.

Lemma opens_line_comment_width (k w : nat) :
  opens_line_comment content suffix k = Some w -> 1 <= w <= 2.
Proof.
  unfold opens_line_comment.
  destruct (_ && _); [intros [= <-]; lia|].
  destruct (_ && _); [intros [= <-]; lia|discriminate].
Qed.

(** From code mode, the opener of a line comment is consumed silently. *)
Lemma open_line_comment (st : State) (w : nat) :
  code_mode st = true -> opens_line_comment content suffix (i st) = Some w ->
  step content suffix st =
  Some (mkState (result st) (i st + w) false (string_char st) false true).
Proof.
  intros Hm. unfold opens_line_comment.
  destruct ((suffix =? ".py")%string && is_char (content !! i st) hash) eqn:E1.
  - intros [= <-]. apply andb_prop in E1 as [Ep Ec]. apply is_char_Some in Ec.
    rewrite (step_code content suffix st hash Hm Ec). simpl. rewrite Ep. reflexivity.
  - destruct (suffix_in suffix clike_suffixes && is_char (content !! i st) slash
              && is_char (content !! (i st + 1)) slash) eqn:E2; [|discriminate].
    intros [= <-]. apply andb_prop in E2 as [E2 En]. apply andb_prop in E2 as [Es Ec].
    apply is_char_Some in Ec.
    rewrite (step_code content suffix st slash Hm Ec). simpl.
    rewrite andb_false_r, Es, En. reflexivity.
Qed.

(** From code mode, the opener of a block comment is consumed silently. *)
Lemma open_block_comment (st : State) :
  code_mode st = true -> opens_block_comment content suffix (i st) = true ->
  step content suffix st =
  Some (mkState (result st) (i st + 2) false (string_char st) true false).
Proof.
  intros Hm H. unfold opens_block_comment in H.
  apply andb_prop in H as [H En]. apply andb_prop in H as [Es Ec].
  apply is_char_Some in Ec. pose proof En as En'. apply is_char_Some in En'.
  rewrite (step_code content suffix st slash Hm Ec). simpl.
  rewrite andb_false_r, Es, En.
  replace (is_char (content !! (i st + 1)) slash) with false
    by (rewrite En'; reflexivity).
  rewrite andb_false_r. reflexivity.
Qed.

Lemma starts_with_take (pat s : list N) :
  starts_with pat s = true -> take (length pat) s = pat.
Proof.
  revert s. induction pat as [|p pat IH]; intros [|c s]; simpl; try discriminate;
    try reflexivity.
  intros H. apply andb_prop in H as [H1 H2]. apply N.eqb_eq in H1. subst.
  now rewrite IH.
Qed.

Lemma py_find_occurrence (pat : list N) (start e : nat) :
  py_find content pat start = Some e ->
  start <= e /\ py_slice content e (length pat) = pat.
Proof.
  unfold py_find. destruct (start <=? length content); [|discriminate].
  intros H. apply find_at_bounds in H as (H1 & _ & H3). split; [exact H1|].
  rewrite drop_drop in H3. replace (start + (e - start)) with e in H3 by lia.
  unfold py_slice. now apply starts_with_take.
Qed.

(** An opening marker of a markup comment with no closing marker behind it
    is emitted as ordinary text. *)
Lemma open_markup_unterminated (st : State) :
  code_mode st = true -> suffix_in suffix markup_suffixes = true ->
  py_slice content (i st) 4 = str "<!--" ->
  (forall k, i st + 4 <= k -> py_slice content k 3 <> str "-->") ->
  step content suffix st =
  Some (mkState (result st ++ [less_than]) (i st + 1) false (string_char st) false false).
Proof.
  intros Hm Hs Ho Hno.
  assert (Hc : content !! i st = Some less_than).
  { pose proof (f_equal (fun l => l !! 0) Ho) as H. simpl in H.
    unfold py_slice in H. rewrite lookup_take_lt, lookup_drop, Nat.add_0_r in H by lia.
    exact H. }
  assert (Hf : py_find content (str "-->") (i st + 4) = None).
  { destruct (py_find content (str "-->") (i st + 4)) as [e|] eqn:E; [|reflexivity].
    apply py_find_occurrence in E as [E1 E2]. exfalso. exact (Hno e E1 E2). }
  rewrite (step_code content suffix st less_than Hm Hc). simpl.
  change (is_quote less_than) with false. cbv iota.
  rewrite !andb_false_r, Hs, Hf. simpl.
  rewrite bool_decide_eq_true_2 by exact Ho. reflexivity.
Qed.

End Openers.


(** ** The loop computes [scan] *)

Section LoopIsScan.

Variable content : list N.
Variable suffix : string.
Hypothesis Hmarkup : suffix_in suffix markup_suffixes = false.

Lemma drop_lookup_cons (k : nat) (c : N) :
  content !! k = Some c -> drop k content = c :: drop (k + 1) content.
Proof. intros H. rewrite Nat.add_1_r. now apply drop_S. Qed.

Lemma drop_lookup_nil (k : nat) :
  content !! k = None -> drop k content = [].
Proof. intros H. apply drop_ge. now apply lookup_ge_None. Qed.

Lemma scan_nil (m : Mode) : scan suffix m [] = [].
Proof. destruct m; reflexivity. Qed.

Lemma step_remaining (st st' : State) :
  Inv content st -> i st < length content ->
  step content suffix st = Some st' ->
  result st' ++ remaining content suffix st' = result st ++ remaining content suffix st.
Proof.
  intros HI Hlt Hs.
  destruct (lookup_lt_is_Some' content (i st) Hlt) as [c Hc].
  pose proof (inv_modes _ _ HI) as Hm.
  unfold remaining at 2. rewrite (drop_lookup_cons _ _ Hc).
  destruct (in_line_comment st) eqn:Hl.
  { rewrite (step_line_comment content suffix st c Hl Hc) in Hs.
    destruct (in_block_comment st) eqn:Hb; [discriminate|].
    destruct (in_string st) eqn:Hstr; [discriminate|].
    simpl. destruct (c =? newline)%N; injection Hs as <-; unfold remaining; simpl.
    - now rewrite <- app_assoc.
    - reflexivity. }
  destruct (in_block_comment st) eqn:Hb.
  { rewrite (step_block_comment content suffix st c Hl Hb Hc) in Hs.
    destruct (in_string st) eqn:Hstr; [discriminate|].
    simpl. destruct (content !! (i st + 1)) as [d|] eqn:Hd.
    - rewrite (drop_lookup_cons _ _ Hd). simpl in Hs.
      destruct ((c =? star)%N && (d =? slash)%N); injection Hs as <-;
        unfold remaining; simpl.
      + now rewrite <- Nat.add_assoc.
      + now rewrite (drop_lookup_cons _ _ Hd).
    - rewrite (drop_lookup_nil _ Hd). simpl in Hs. rewrite andb_false_r in Hs.
      injection Hs as <-. unfold remaining; simpl.
      now rewrite (drop_lookup_nil _ Hd). }
  destruct (in_string st) eqn:Hstr.
  { destruct (inv_string _ _ HI Hstr) as (H1 & q & Hq & _).
    destruct (lookup_lt_is_Some' content (i st - 1) ltac:(lia)) as [p Hp].
    rewrite (step_string content suffix st c p Hl Hb Hstr H1 Hc Hp) in Hs.
    injection Hs as <-. unfold remaining; simpl. rewrite Hq, Hp. simpl.
    rewrite <- app_assoc. simpl.
    replace (i st + 1 - 1) with (i st) by lia. rewrite Hc.
    destruct ((q =? c)%N && negb (p =? backslash)%N); reflexivity. }
  assert (Hcode : code_mode st = true) by (unfold code_mode; now rewrite Hstr, Hb, Hl).
  rewrite (step_code content suffix st c Hcode Hc) in Hs. simpl in Hs.
  rewrite Hmarkup in Hs. simpl in Hs. simpl.
  destruct (is_quote c).
  { injection Hs as <-. unfold remaining; simpl.
    replace (i st + 1 - 1) with (i st) by lia. rewrite Hc.
    now rewrite <- app_assoc. }
  destruct ((suffix =? ".py")%string && (c =? hash)%N).
  { injection Hs as <-. reflexivity. }
  destruct (content !! (i st + 1)) as [d|] eqn:Hd.
  - rewrite (drop_lookup_cons _ _ Hd). simpl in Hs.
    destruct (suffix_in suffix clike_suffixes && (c =? slash)%N && (d =? slash)%N).
    { injection Hs as <-. unfold remaining; simpl. now rewrite <- Nat.add_assoc. }
    destruct ((suffix_in suffix clike_suffixes || (suffix =? ".css")%string)
              && (c =? slash)%N && (d =? star)%N).
    { injection Hs as <-. unfold remaining; simpl. now rewrite <- Nat.add_assoc. }
    injection Hs as <-. unfold remaining; simpl.
    rewrite (drop_lookup_cons _ _ Hd). now rewrite <- app_assoc.
  - rewrite (drop_lookup_nil _ Hd). simpl in Hs. rewrite !andb_false_r in Hs.
    injection Hs as <-. unfold remaining; simpl.
    rewrite (drop_lookup_nil _ Hd). now rewrite <- app_assoc.
Qed.

Lemma remaining_at_end (st : State) :
  length content <= i st -> remaining content suffix st = [].
Proof.
  intros H. unfold remaining. rewrite drop_ge by exact H.
  destruct (in_line_comment st), (in_block_comment st), (in_string st),
    (string_char st), (content !! (i st - 1)); reflexivity.
Qed.

(** For a suffix without the markup rule the function returns what the
    recursive reading computes from code mode. *)
Lemma loop_is_scan :
  remove_comments_safely content suffix = Some (scan suffix Code content).
Proof.
  destruct (run_final content suffix) as (n & fin & _ & Hit & Hfin & ->).
  f_equal.
  assert (H : result fin ++ remaining content suffix fin = scan suffix Code content).
  { revert fin Hfin Hit. intros fin _ Hit. revert fin Hit.
    assert (G : forall st, reachable content suffix st ->
              result st ++ remaining content suffix st = scan suffix Code content).
    { apply (reachable_inductive content suffix
               (fun st => result st ++ remaining content suffix st
                          = scan suffix Code content)).
      - reflexivity.
      - intros st st' Hr HP Hlt Hs. rewrite <- HP.
        apply step_remaining; [now apply (reachable_Inv _ suffix) | exact Hlt | exact Hs]. }
    intros fin Hit. apply G. now exists n. }
  rewrite remaining_at_end, app_nil_r in H by exact Hfin. exact H.
Qed.

End LoopIsScan.

(** ** Scanning twice *)

Section ScanTwice.

Variable suffix : string.
Hypothesis Hcss : (suffix =? ".css")%string = false.

Local Arguments scan : simpl never.

Lemma scan_code_cons (c : N) (t : list N) :
  scan suffix Code (c :: t) =
  if is_quote c then c :: scan suffix (StringLiteral c c) t
  else if (suffix =? ".py")%string && (c =? hash)%N then scan suffix LineComment t
  else match t with
       | d :: t' =>
           if suffix_in suffix clike_suffixes && (c =? slash)%N && (d =? slash)%N
           then scan suffix LineComment t'
           else if (suffix_in suffix clike_suffixes || (suffix =? ".css")%string)
                   && (c =? slash)%N && (d =? star)%N
           then scan suffix BlockComment t'
           else c :: scan suffix Code t
       | [] => [c]
       end.
Proof. reflexivity. Qed.

Lemma scan_line_cons (c : N) (t : list N) :
  scan suffix LineComment (c :: t) =
  if (c =? newline)%N then c :: scan suffix Code t else scan suffix LineComment t.
Proof. reflexivity. Qed.

Lemma scan_block_cons (c : N) (t : list N) :
  scan suffix BlockComment (c :: t) =
  match t with
  | d :: t' =>
      if (c =? star)%N && (d =? slash)%N then scan suffix Code t'
      else scan suffix BlockComment t
  | [] => []
  end.
Proof. reflexivity. Qed.

Lemma scan_string_cons (q p c : N) (t : list N) :
  scan suffix (StringLiteral q p) (c :: t) =
  c :: (if (q =? c)%N && negb (p =? backslash)%N then scan suffix Code t
        else scan suffix (StringLiteral q c) t).
Proof. reflexivity. Qed.

Lemma py_not_clike :
  suffix_in suffix clike_suffixes = true -> (suffix =? ".py")%string = false.
Proof.
  intros H. destruct (String.eqb_spec suffix ".py") as [->|]; [|reflexivity].
  vm_compute in H. discriminate.
Qed.

(** A character that is neither a quote nor the start of a comment opener
    in front of the text [body]. *)
Lemma scan_code_cons_plain (c : N) (body : list N) :
  is_quote c = false ->
  (suffix =? ".py")%string && (c =? hash)%N = false ->
  (suffix_in suffix clike_suffixes && (c =? slash)%N = true ->
   forall e body', body = e :: body' -> (e =? slash)%N = false /\ (e =? star)%N = false) ->
  scan suffix Code (c :: body) = c :: scan suffix Code body.
Proof.
  intros Hq Hp Hhead. rewrite scan_code_cons, Hq, Hp, Hcss, orb_false_r.
  destruct body as [|e body']; [reflexivity|].
  destruct (suffix_in suffix clike_suffixes && (c =? slash)%N) eqn:E; [|reflexivity].
  destruct (Hhead eq_refl e body' eq_refl) as [-> ->]. reflexivity.
Qed.

(** In a C-like language a character other than the slash is never
    removed from the head of the text. *)
Lemma scan_code_head (d : N) (t : list N) :
  suffix_in suffix clike_suffixes = true -> (d =? slash)%N = false ->
  exists rest, scan suffix Code (d :: t) = d :: rest.
Proof.
  intros Hc Hd. rewrite scan_code_cons, (py_not_clike Hc), Hd, !andb_false_r.
  simpl. destruct (is_quote d); [eauto|]. destruct t; eauto.
Qed.

Lemma scan_twice_bounded (n : nat) :
  forall l, length l <= n ->
    scan suffix Code (scan suffix Code l) = scan suffix Code l /\
    scan suffix Code (scan suffix LineComment l) = scan suffix LineComment l /\
    scan suffix Code (scan suffix BlockComment l) = scan suffix BlockComment l /\
    forall q p, scan suffix (StringLiteral q p) (scan suffix (StringLiteral q p) l)
                = scan suffix (StringLiteral q p) l.
Proof.
  induction n as [|n IH]; intros [|c t] Hlen; simpl in Hlen; try lia;
    try (repeat split; reflexivity).
  destruct (IH t ltac:(lia)) as (IHc & IHl & IHb & IHs).
  split; [|split; [|split]].
  - rewrite scan_code_cons. destruct (is_quote c) eqn:Hq.
    { rewrite scan_code_cons, Hq. f_equal. apply IHs. }
    destruct ((suffix =? ".py")%string && (c =? hash)%N) eqn:Hp; [exact IHl|].
    destruct t as [|d t'].
    { rewrite scan_code_cons, Hq, Hp. reflexivity. }
    destruct (IH t' ltac:(simpl in Hlen; lia)) as (_ & IHl' & IHb' & _).
    destruct (suffix_in suffix clike_suffixes && (c =? slash)%N && (d =? slash)%N) eqn:T1;
      [exact IHl'|].
    destruct ((suffix_in suffix clike_suffixes || (suffix =? ".css")%string)
              && (c =? slash)%N && (d =? star)%N) eqn:T2; [exact IHb'|].
    rewrite scan_code_cons_plain; [now rewrite IHc | exact Hq | exact Hp |].
    intros E e body' Hbody. rewrite E in T1. rewrite Hcss, orb_false_r, E in T2.
    simpl in T1, T2. apply andb_prop in E as [Hc _].
    destruct (scan_code_head d t' Hc T1) as [rest Hrest].
    rewrite Hrest in Hbody. injection Hbody as <- _. auto.
  - rewrite scan_line_cons. destruct (c =? newline)%N eqn:E; [|exact IHl].
    apply N.eqb_eq in E. subst c.
    rewrite scan_code_cons_plain; [now rewrite IHc | reflexivity | apply andb_false_r |].
    rewrite andb_false_r. discriminate.
  - rewrite scan_block_cons. destruct t as [|d t']; [reflexivity|].
    destruct ((c =? star)%N && (d =? slash)%N); [|exact IHb].
    destruct (IH t' ltac:(simpl in Hlen; lia)) as (IHc' & _). exact IHc'.
  - intros q p. rewrite !scan_string_cons. f_equal.
    destruct ((q =? c)%N && negb (p =? backslash)%N); [exact IHc | apply IHs].
Qed.

(** Scanning the scanned text again changes nothing, for every language
    without the block-comment-only rule of CSS. *)
Lemma scan_twice (l : list N) :
  scan suffix Code (scan suffix Code l) = scan suffix Code l.
Proof. apply (scan_twice_bounded (length l) l (Nat.le_refl _)). Qed.

End ScanTwice.


(** ** The pipeline on a file that fails validation *)

Section Skipped.

Variable ext : External.

(** The only file [validate_syntax] touches is the temporary file. *)
Lemma validate_syntax_effect (fs : gmap string (list Byte.byte)) (file_path : string)
    (content : list N) :
  snd (validate_syntax ext fs file_path content) = fs \/
  exists tmp_path data,
    mktemp ext fs (suffix_of ext file_path) = Some tmp_path /\
    snd (validate_syntax ext fs file_path content) = <[tmp_path := data]> fs.
Proof.
  unfold validate_syntax.
  destruct (suffix_of ext file_path =? ".py")%string; [now left|].
  destruct (mktemp ext fs (suffix_of ext file_path)) as [tmp|] eqn:Et; [|now left].
  right. exists tmp.
  destruct (utf8_encode ext content) as [data|]; [|now exists []].
  exists data. split; [reflexivity|].
  destruct (suffix_in _ _); [reflexivity|].
  destruct (_ =? ".php")%string; [reflexivity|].
  destruct (suffix_in _ _); reflexivity.
Qed.

Lemma process_all_cons (fs : gmap string (list Byte.byte)) (file_path : string)
    (files : list string) (backup validate dry_run : bool) :
  process_all ext fs (file_path :: files) backup validate dry_run =
  (fst (process_file ext fs file_path backup validate dry_run)
     :: fst (process_all ext (snd (process_file ext fs file_path backup validate dry_run))
               files backup validate dry_run),
   snd (process_all ext (snd (process_file ext fs file_path backup validate dry_run))
          files backup validate dry_run)).
Proof.
  simpl. destruct (process_file ext fs file_path backup validate dry_run) as [r fs1].
  simpl. destruct (process_all ext fs1 files backup validate dry_run). reflexivity.
Qed.

End Skipped.


(** * The properties of the specification *)

(** C1 (amended). For every input and every suffix other than the CSS and
    the two markup suffixes, that is for Python, for the C-like languages
    and for unrecognized suffixes, the scanner is idempotent: it returns a
    text, and applied to that text it returns it unchanged. *)
Theorem scanner_idempotent (content : list N) (suffix : string) :
  (suffix =? ".css")%string = false ->
  suffix_in suffix markup_suffixes = false ->
  exists out, remove_comments_safely content suffix = Some out /\
              remove_comments_safely out suffix = Some out.
Proof.
  intros Hcss Hmarkup. exists (scan suffix Code content).
  split; [now apply loop_is_scan|].
  rewrite loop_is_scan by exact Hmarkup. f_equal. now apply scan_twice.
Qed.

Lemma scanner_idempotent_witness :
  exists out,
    remove_comments_safely (str "a = 1; // one" ++ [newline] ++ str "/* two */ b") ".js"
    = Some out /\
    remove_comments_safely out ".js" = Some out.
Proof. apply scanner_idempotent; reflexivity. Defined.

(** C1 as stated fails for CSS and for markup: removing a comment can join
    the characters around it into a new comment opener, which a second pass
    removes. *)
Lemma scanner_not_idempotent_css_markup :
  (exists out, remove_comments_safely (str "//**/* x */") ".css" = Some out /\
               remove_comments_safely out ".css" <> Some out) /\
  (exists out, remove_comments_safely (str "<!<!-- -->-- x -->") ".html" = Some out /\
               remove_comments_safely out ".html" <> Some out).
Proof.
  split.
  - exists (str "/* x */"). split; [vm_compute; reflexivity|]. vm_compute. discriminate.
  - exists (str "<!-- x -->"). split; [vm_compute; reflexivity|]. vm_compute. discriminate.
Qed.

Example css_second_pass :
  remove_comments_safely (str "//**/* x */") ".css" = Some (str "/* x */") /\
  remove_comments_safely (str "/* x */") ".css" = Some [].
Proof. split; vm_compute; reflexivity. Qed.

Example markup_second_pass :
  remove_comments_safely (str "<!<!-- -->-- x -->") ".html" = Some (str "<!-- x -->") /\
  remove_comments_safely (str "<!-- x -->") ".html" = Some [].
Proof. split; vm_compute; reflexivity. Qed.

(** C2. Every character inside a string literal is emitted: at a state of
    the scan that is in string mode the iteration appends the current
    character to [result], whatever the character and the language are, and
    advances by one; the returned text contains it right after what had been
    emitted before. *)
Theorem string_content_preserved (content : list N) (suffix : string) (st : State) :
  reachable content suffix st -> i st < length content -> in_string st = true ->
  exists c st' tail,
    content !! i st = Some c /\
    step content suffix st = Some st' /\
    result st' = result st ++ [c] /\ i st' = i st + 1 /\
    remove_comments_safely content suffix = Some (result st ++ c :: tail).
Proof.
  intros Hr Hlt Hstr. pose proof (reachable_Inv _ _ _ Hr) as HI.
  destruct (lookup_lt_is_Some' content (i st) Hlt) as [c Hc].
  destruct (inv_string _ _ HI Hstr) as (H1 & _).
  destruct (lookup_lt_is_Some' content (i st - 1) ltac:(lia)) as [p Hp].
  pose proof (inv_modes _ _ HI) as Hm. rewrite Hstr in Hm.
  assert (Hl : in_line_comment st = false) by (destruct (in_line_comment st), (in_block_comment st); simpl in Hm; congruence).
  assert (Hb : in_block_comment st = false) by (destruct (in_line_comment st), (in_block_comment st); simpl in Hm; congruence).
  pose proof (step_string content suffix st c p Hl Hb Hstr H1 Hc Hp) as Hs.
  destruct (reachable_output content suffix _ (reachable_step _ _ _ _ Hr Hlt Hs))
    as (fin & _ & Hout & _ & _ & [tail Htail]).
  simpl in Htail.
  eexists c, _, tail. split; [exact Hc|]. split; [exact Hs|].
  split; [reflexivity|]. split; [reflexivity|].
  rewrite Hout, Htail, <- app_assoc. reflexivity.
Qed.

Lemma string_content_preserved_witness :
  exists c st' tail,
    (dquote :: str "/*#") !! 1 = Some c /\
    step (dquote :: str "/*#") ".c" (mkState [dquote] 1 true (Some dquote) false false)
      = Some st' /\
    result st' = [dquote] ++ [c] /\ i st' = 1 + 1 /\
    remove_comments_safely (dquote :: str "/*#") ".c" = Some ([dquote] ++ c :: tail).
Proof.
  apply (string_content_preserved (dquote :: str "/*#") ".c"
           (mkState [dquote] 1 true (Some dquote) false false)).
  - exists 1. reflexivity.
  - simpl. lia.
  - reflexivity.
Defined.

(** C3. What a removed comment leaves in the output.  From code mode at the
    opener of a line comment, the scan up to and including the first newline
    behind the opener appends exactly that newline; when no newline follows,
    the function returns what had been emitted before the comment.  From code
    mode at the opener of a block comment, the scan up to and including the
    first closing marker appends nothing, whatever characters, newlines
    included, stand in between. *)
Theorem comment_contribution (content : list N) (suffix : string) (st : State) :
  reachable content suffix st -> code_mode st = true ->
  (forall w j,
     opens_line_comment content suffix (i st) = Some w ->
     i st + w <= j -> content !! j = Some newline ->
     (forall k, i st + w <= k < j -> content !! k <> Some newline) ->
     exists n st', iter content suffix n st = Some st' /\
                   result st' = result st ++ [newline] /\
                   i st' = j + 1 /\ code_mode st' = true) /\
  (forall w,
     opens_line_comment content suffix (i st) = Some w ->
     (forall k, i st + w <= k -> content !! k <> Some newline) ->
     remove_comments_safely content suffix = Some (result st)) /\
  (forall j,
     opens_block_comment content suffix (i st) = true ->
     i st + 2 <= j -> block_close_at content j ->
     (forall k, i st + 2 <= k < j -> ~ block_close_at content k) ->
     exists n st', iter content suffix n st = Some st' /\
                   result st' = result st /\
                   i st' = j + 2 /\ code_mode st' = true).
Proof.
  intros Hr Hm. pose proof (reachable_Inv _ _ _ Hr) as HI.
  split; [|split].
  - intros w j Ho Hj Hnl Hno.
    pose proof (open_line_comment content suffix st w Hm Ho) as Hs.
    pose proof (lookup_lt_Some _ _ _ Hnl) as Hlt.
    pose proof (opens_line_comment_width _ _ _ _ Ho) as Hw.
    eexists (S (S (j - (i st + w)))), _. split.
    + rewrite (iter_S content suffix _ st _ ltac:(lia) Hs).
      apply (line_comment_skip content suffix _ _ j); simpl; try reflexivity;
        try assumption; lia.
    + simpl. auto.
  - intros w Ho Hno.
    pose proof (open_line_comment content suffix st w Hm Ho) as Hs.
    pose proof (opens_line_comment_width _ _ _ _ Ho) as Hw.
    destruct (Nat.lt_ge_cases (i st) (length content)) as [Hlt|Hge].
    + apply (output_of_silent_rest content suffix st Hr).
      replace (length content - i st) with (S (length content - i st - 1)) by lia.
      rewrite (loop_body _ _ _ _ _ Hlt Hs).
      apply (line_comment_eof content suffix _
               (mkState (result st) (i st + w) false (string_char st) false true));
        simpl; try reflexivity; try assumption; lia.
    + apply (output_of_silent_rest content suffix st Hr).
      exists st. split; [apply loop_exit; lia | reflexivity].
  - intros j Ho Hj [H1 H2] Hno.
    pose proof (open_block_comment content suffix st Hm Ho) as Hs.
    pose proof (lookup_lt_Some _ _ _ H1) as Hlt.
    eexists (S (S (j - (i st + 2)))), _. split.
    + rewrite (iter_S content suffix _ st _ ltac:(lia) Hs).
      apply (block_comment_skip content suffix _ _ j); simpl; try reflexivity;
        try assumption; lia.
    + simpl. auto.
Qed.

Lemma comment_contribution_witness :
  exists n st',
    iter (str "x#c" ++ [newline] ++ str "y") ".py" n (mkState (str "x") 1 false None false false)
    = Some st' /\
    result st' = str "x" ++ [newline] /\ i st' = 3 + 1 /\ code_mode st' = true.
Proof.
  assert (Hr : reachable (str "x#c" ++ [newline] ++ str "y") ".py"
                 (mkState (str "x") 1 false None false false))
    by (exists 1; reflexivity).
  apply (proj1 (comment_contribution _ _ _ Hr eq_refl) 1 3);
    [reflexivity | simpl; lia | reflexivity |].
  intros k Hk. simpl in Hk. assert (k = 2) as -> by lia. discriminate.
Defined.

(** C4. A string is left exactly at its closing delimiter.  Entering a
    string records the quote character that opened it; in string mode that
    record is kept, and the iteration returns to code mode if and only if
    the current character is the recorded delimiter and the character just
    before it in the input is not a backslash.  In particular a delimiter
    behind two backslashes does not close the string. *)
Theorem string_exit (content : list N) (suffix : string) (st : State) :
  reachable content suffix st -> i st < length content ->
  (code_mode st = true ->
   forall c, content !! i st = Some c -> is_quote c = true ->
   exists st', step content suffix st = Some st' /\
               in_string st' = true /\ string_char st' = Some c) /\
  (in_string st = true ->
   exists q c p st',
     string_char st = Some q /\ is_quote q = true /\
     content !! i st = Some c /\
     1 <= i st /\ py_index content (Z.of_nat (i st) - 1) = Some p /\
     content !! (i st - 1) = Some p /\
     step content suffix st = Some st' /\
     string_char st' = string_char st /\
     (code_mode st' = true <-> c = q /\ p <> backslash) /\
     (in_string st' = true <-> ~ (c = q /\ p <> backslash))) /\
  (in_string st = true -> 2 <= i st ->
   content !! i st = string_char st ->
   content !! (i st - 1) = Some backslash ->
   content !! (i st - 2) = Some backslash ->
   exists st', step content suffix st = Some st' /\ in_string st' = true).
Proof.
  intros Hr Hlt. pose proof (reachable_Inv _ _ _ Hr) as HI.
  assert (Hstring : in_string st = true ->
            exists q c p, string_char st = Some q /\ is_quote q = true /\
              content !! i st = Some c /\ 1 <= i st /\
              content !! (i st - 1) = Some p /\
              step content suffix st =
              Some (mkState (result st ++ [c]) (i st + 1)
                      (negb (is_char (string_char st) c && negb (p =? backslash)%N))
                      (string_char st) false false)).
  { intros Hstr. destruct (lookup_lt_is_Some' content (i st) Hlt) as [c Hc].
    destruct (inv_string _ _ HI Hstr) as (H1 & q & Hq & Hqq).
    destruct (lookup_lt_is_Some' content (i st - 1) ltac:(lia)) as [p Hp].
    pose proof (inv_modes _ _ HI) as Hm. rewrite Hstr in Hm.
    exists q, c, p. repeat (split; [assumption|]).
    apply step_string; try assumption;
      destruct (in_line_comment st), (in_block_comment st); simpl in Hm; congruence. }
  split; [|split].
  - intros Hm c Hc Hq. rewrite (step_code content suffix st c Hm Hc). simpl.
    rewrite Hq. eexists. split; [reflexivity|]. simpl. auto.
  - intros Hstr. destruct (Hstring Hstr) as (q & c & p & Hq & Hqq & Hc & H1 & Hp & Hs).
    exists q, c, p. eexists. repeat (split; [eassumption|]).
    split; [rewrite py_index_pred; [exact Hp | lia | lia]|].
    split; [exact Hp|]. split; [exact Hs|]. split; [reflexivity|].
    unfold code_mode. simpl. rewrite Hq. simpl.
    destruct (N.eqb_spec q c) as [->|Hne]; destruct (N.eqb_spec p backslash) as [->|Hnp];
      simpl; intuition (try congruence; try discriminate).
  - intros Hstr _ Hcur Hprev _.
    destruct (Hstring Hstr) as (q & c & p & Hq & Hqq & Hc & H1 & Hp & Hs).
    eexists. split; [exact Hs|]. simpl.
    rewrite Hprev in Hp. injection Hp as <-. simpl. now rewrite andb_false_r.
Qed.

Lemma string_exit_witness :
  exists st',
    step ([dquote; backslash; backslash; dquote] ++ str "//x") ".js"
         (mkState [dquote; backslash; backslash] 3 true (Some dquote) false false)
    = Some st' /\ in_string st' = true.
Proof.
  assert (Hr : reachable ([dquote; backslash; backslash; dquote] ++ str "//x") ".js"
                 (mkState [dquote; backslash; backslash] 3 true (Some dquote) false false))
    by (exists 3; reflexivity).
  apply (proj2 (proj2 (string_exit _ _ _ Hr ltac:(simpl; lia))));
    [reflexivity | simpl; lia | reflexivity | reflexivity | reflexivity].
Defined.

(** The string opened by the first quote is not closed by the quote behind
    the two backslashes, so the two slashes after it are string content. *)
Example escaped_backslash_keeps_string_open :
  remove_comments_safely ([dquote; backslash; backslash; dquote] ++ str "//x") ".js"
  = Some ([dquote; backslash; backslash; dquote] ++ str "//x").
Proof. vm_compute. reflexivity. Qed.

(** C5. Unterminated comments.  From code mode at the opener of a block
    comment (C-like languages and CSS) with no closing marker anywhere
    behind it, the function returns normally with exactly what had been
    emitted before the opener: the rest of the input is dropped.  From code
    mode at the four characters that open a markup comment with no closing
    marker anywhere behind them, the iteration emits the less-than sign as
    ordinary text and continues in code mode at the next character. *)
Theorem unterminated_comments (content : list N) (suffix : string) (st : State) :
  reachable content suffix st -> code_mode st = true ->
  (opens_block_comment content suffix (i st) = true ->
   (forall k, i st + 2 <= k -> ~ block_close_at content k) ->
   remove_comments_safely content suffix = Some (result st)) /\
  (suffix_in suffix markup_suffixes = true ->
   py_slice content (i st) 4 = str "<!--" ->
   (forall k, i st + 4 <= k -> py_slice content k 3 <> str "-->") ->
   exists st', step content suffix st = Some st' /\
               result st' = result st ++ [less_than] /\
               i st' = i st + 1 /\ code_mode st' = true).
Proof.
  intros Hr Hm. split.
  - intros Ho Hno.
    pose proof (open_block_comment content suffix st Hm Ho) as Hs.
    assert (Hlt : i st < length content).
    { unfold opens_block_comment in Ho. apply andb_prop in Ho as [Ho _].
      apply andb_prop in Ho as [_ Ho]. apply is_char_Some in Ho.
      eapply lookup_lt_Some; eassumption. }
    apply (output_of_silent_rest content suffix st Hr).
    replace (length content - i st) with (S (length content - i st - 1)) by lia.
    rewrite (loop_body _ _ _ _ _ Hlt Hs).
    apply (block_comment_eof content suffix _
             (mkState (result st) (i st + 2) false (string_char st) true false));
      simpl; try reflexivity; try assumption; lia.
  - intros Hs Ho Hno. eexists. split.
    + apply open_markup_unterminated; assumption.
    + simpl. auto.
Qed.

Lemma unterminated_comments_witness :
  remove_comments_safely (str "code /* never closes") ".c" = Some (str "code ").
Proof.
  assert (Hr : reachable (str "code /* never closes") ".c"
                 (mkState (str "code ") 5 false None false false))
    by (exists 5; reflexivity).
  apply (proj1 (unterminated_comments _ _ _ Hr eq_refl)); [reflexivity|].
  intros k Hk [H1 H2]. simpl in Hk.
  apply lookup_lt_Some in H2. simpl in H2.
  do 7 (destruct k as [|k]; [lia|]).
  do 13 (destruct k as [|k]; [discriminate|]). lia.
Defined.

Example unterminated_block_css :
  remove_comments_safely (str "a{} /* never closes") ".css" = Some (str "a{} ").
Proof. vm_compute. reflexivity. Qed.

Example unterminated_markup :
  remove_comments_safely (str "<p><!-- never closes") ".html"
  = Some (str "<p><!-- never closes").
Proof. vm_compute. reflexivity. Qed.

(** C6. For a suffix that is none of the recognized extensions the scanner
    is the identity. *)
Theorem unrecognized_suffix_identity (content : list N) (suffix : string) :
  recognized suffix = false ->
  remove_comments_safely content suffix = Some content.
Proof.
  intros Hnone.
  destruct (run_final content suffix) as (n & fin & _ & Hit & Hfin & ->).
  destruct (unrecognized_copies content suffix Hnone fin (ex_intro _ n Hit))
    as (_ & _ & ->).
  now rewrite take_ge.
Qed.

Lemma unrecognized_suffix_identity_witness :
  remove_comments_safely (str "a = 1 # /* kept */ // <!-- kept -->") ".txt"
  = Some (str "a = 1 # /* kept */ // <!-- kept -->").
Proof. apply unrecognized_suffix_identity. reflexivity. Defined.

(** C7. With validation enabled, a file whose cleaned content fails the
    syntax check is reported as skipped.  The file system is then left as
    the check left it: no backup was made and nothing was written to the
    file, every file that existed keeps its contents (at most the checker's
    temporary file is new), and the run goes on to the remaining files. *)
Theorem invalid_syntax_skipped (ext : External)
    (fs : gmap string (list Byte.byte)) (file_path : string)
    (backup dry_run : bool) (original : list Byte.byte) (cleaned : list N)
    (files : list string) :
  fresh_temp ext ->
  fs !! file_path = Some original ->
  remove_comments_safely (utf8_decode_ignore ext original) (suffix_of ext file_path)
    = Some cleaned ->
  fst (validate_syntax ext fs file_path cleaned) = false ->
  let fs1 := snd (validate_syntax ext fs file_path cleaned) in
  process_file ext fs file_path backup true dry_run
    = ("[SKIPPED - INVALID SYNTAX] " ++ file_path, fs1)%string /\
  fs1 !! file_path = Some original /\
  (forall p, is_Some (fs !! p) -> fs1 !! p = fs !! p) /\
  (fs1 = fs \/ exists tmp_path data, fs !! tmp_path = None /\ fs1 = <[tmp_path := data]> fs) /\
  process_all ext fs (file_path :: files) backup true dry_run
    = (("[SKIPPED - INVALID SYNTAX] " ++ file_path)%string
         :: fst (process_all ext fs1 files backup true dry_run),
       snd (process_all ext fs1 files backup true dry_run)).
Proof.
  intros Hfresh Hread Hclean Hinvalid fs1.
  assert (Hrun : process_file ext fs file_path backup true dry_run
                 = ("[SKIPPED - INVALID SYNTAX] " ++ file_path, fs1)%string).
  { unfold process_file. rewrite Hread, Hclean. subst fs1.
    destruct (validate_syntax ext fs file_path cleaned) as [valid fs']. simpl in *.
    subst valid. reflexivity. }
  assert (Hsame : forall p, is_Some (fs !! p) -> fs1 !! p = fs !! p).
  { intros p [data Hp]. subst fs1.
    destruct (validate_syntax_effect ext fs file_path cleaned) as [->|(tmp & d & Ht & ->)];
      [reflexivity|].
    apply Hfresh in Ht. apply lookup_insert_ne. congruence. }
  split; [exact Hrun|]. split; [rewrite Hsame, Hread; eauto|]. split; [exact Hsame|].
  split.
  - subst fs1.
    destruct (validate_syntax_effect ext fs file_path cleaned) as [->|(tmp & d & Ht & ->)];
      [now left|].
    right. exists tmp, d. split; [now apply Hfresh in Ht | reflexivity].
  - rewrite process_all_cons, Hrun. reflexivity.
Qed.

Lemma invalid_syntax_skipped_witness :
  process_file example_world example_files "a.py" true true false
  = ("[SKIPPED - INVALID SYNTAX] a.py"%string, example_files).
Proof.
  assert (Hfresh : fresh_temp example_world).
  { intros fs suffix tmp [= <-]. apply fresh_string_fresh. }
  assert (Hread : example_files !! "a.py"%string = Some [Byte.x78; Byte.x23; Byte.x79])
    by (vm_compute; reflexivity).
  assert (Hclean : remove_comments_safely
                     (utf8_decode_ignore example_world [Byte.x78; Byte.x23; Byte.x79])
                     (suffix_of example_world "a.py") = Some (str "x"))
    by (vm_compute; reflexivity).
  assert (Hinvalid : fst (validate_syntax example_world example_files "a.py" (str "x")) = false)
    by (vm_compute; reflexivity).
  exact (proj1 (invalid_syntax_skipped example_world example_files "a.py" true false
                  _ _ [] Hfresh Hread Hclean Hinvalid)).
Defined.

(** C8. The scanner terminates on every input.  Every iteration the loop
    enters returns normally and moves [i] strictly forward, by one, by two,
    or to [end + 3] behind the closing marker of a markup comment; and the
    loop leaves after at most [length content] iterations, with the
    function's return value in [result]. *)
Theorem scanner_terminates (content : list N) (suffix : string) :
  (forall st, reachable content suffix st -> i st < length content ->
     exists st', step content suffix st = Some st' /\
                 advance content st st' /\ i st < i st') /\
  (exists n fin, n <= length content /\
     iter content suffix n init = Some fin /\ length content <= i fin /\
     remove_comments_safely content suffix = Some (result fin)).
Proof.
  split.
  - intros st Hr Hlt. pose proof (reachable_Inv _ _ _ Hr) as HI.
    destruct (step_spec content suffix st HI Hlt) as (st' & Hs & _ & Ha & _).
    exists st'. split; [exact Hs|]. split; [exact Ha|]. now apply (advance_lt content).
  - apply run_final.
Qed.

Lemma scanner_terminates_witness :
  exists st', step (str "a<!--b-->c") ".html" init = Some st' /\
              advance (str "a<!--b-->c") init st' /\ i init < i st'.
Proof.
  apply (proj1 (scanner_terminates (str "a<!--b-->c") ".html")).
  - exists 0. reflexivity.
  - simpl. lia.
Defined.

(** C9. The output is a subsequence of the input: its characters are the
    input's characters at strictly increasing positions, so nothing is
    invented, duplicated or reordered, and the output is no longer than the
    input. *)
Theorem output_subsequence (content : list N) (suffix : string) :
  exists out, remove_comments_safely content suffix = Some out /\
              sublist out content /\ at_increasing_positions out content /\
              length out <= length content.
Proof.
  destruct (reachable_output content suffix init (reachable_init _ _))
    as (fin & _ & Hout & Hi & HI & _).
  exists (result fin). split; [exact Hout|].
  assert (Hsub : sublist (result fin) content).
  { pose proof (inv_sub _ _ HI) as H. rewrite Hi, take_ge in H by lia. exact H. }
  split; [exact Hsub|]. split; [now apply sublist_positions|].
  now apply sublist_length.
Qed.


(** * Further properties of the scanner *)

Section PlainText.

Variable content : list N.
Variable suffix : string.

Lemma opens_line_comment_None (k : nat) (c : N) :
  opens_line_comment content suffix k = None -> content !! k = Some c ->
  (suffix =? ".py")%string && (c =? hash)%N = false /\
  suffix_in suffix clike_suffixes && (c =? slash)%N
    && is_char (content !! (k + 1)) slash = false.
Proof.
  unfold opens_line_comment. intros H Hc. rewrite Hc in H. simpl in H.
  destruct ((suffix =? ".py")%string && (c =? hash)%N); [discriminate|].
  destruct (suffix_in suffix clike_suffixes && (c =? slash)%N
            && is_char (content !! (k + 1)) slash); [discriminate|]. auto.
Qed.

Lemma opens_block_comment_false (k : nat) (c : N) :
  opens_block_comment content suffix k = false -> content !! k = Some c ->
  (suffix_in suffix clike_suffixes || (suffix =? ".css")%string)
    && (c =? slash)%N && is_char (content !! (k + 1)) star = false.
Proof. unfold opens_block_comment. intros H Hc. rewrite Hc in H. exact H. Qed.

Hypothesis Hquote : quote_free content.
Hypothesis Hopen : opener_free content suffix.

(** On a text without quotes and openers the loop stays in code mode and
    has emitted exactly the characters it has passed. *)
Lemma plain_text_copies (st : State) :
  reachable content suffix st ->
  code_mode st = true /\ result st = take (i st) content.
Proof.
  revert st.
  apply (reachable_inductive content suffix
           (fun st => code_mode st = true /\ result st = take (i st) content)).
  - split; reflexivity.
  - intros st st' Hr (Hm & Hres) Hlt Hs.
    destruct (lookup_lt_is_Some' content (i st) Hlt) as [c Hc].
    destruct (Hopen (i st)) as (Hline & Hblock & Hmark).
    destruct (opens_line_comment_None _ _ Hline Hc) as (E1 & E2).
    pose proof (opens_block_comment_false _ _ Hblock Hc) as E3.
    rewrite (step_code content suffix st c Hm Hc) in Hs. simpl in Hs.
    rewrite (Hquote _ _ Hc), E1, E2, E3 in Hs.
    assert (Hnext : take (i st + 1) content = result st ++ [c]).
    { rewrite Nat.add_1_r, (take_S_r _ _ _ Hc), Hres. reflexivity. }
    destruct (suffix_in suffix markup_suffixes) eqn:Em; simpl in Hs.
    + rewrite bool_decide_eq_false_2 in Hs by (apply Hmark; reflexivity).
      injection Hs as <-. simpl. auto.
    + injection Hs as <-. simpl. auto.
Qed.

End PlainText.

(** X1. A text with no quote character and no comment opener of its
    language is returned unchanged. *)
Theorem plain_text_unchanged (content : list N) (suffix : string) :
  quote_free content -> opener_free content suffix ->
  remove_comments_safely content suffix = Some content.
Proof.
  intros Hq Ho.
  destruct (run_final content suffix) as (n & fin & _ & Hit & Hfin & ->).
  destruct (plain_text_copies content suffix Hq Ho fin (ex_intro _ n Hit)) as (_ & ->).
  now rewrite take_ge.
Qed.

Lemma plain_text_unchanged_witness :
  remove_comments_safely (str "a<b") ".html" = Some (str "a<b").
Proof.
  apply plain_text_unchanged.
  - intros k c H. do 3 (destruct k as [|k]; [vm_compute in H; injection H as <-; reflexivity|]).
    vm_compute in H. discriminate.
  - intros k. split; [reflexivity|]. split; [reflexivity|]. intros _.
    intros E. do 3 (destruct k as [|k]; [vm_compute in E; discriminate E|]).
    destruct k; vm_compute in E; discriminate E.
Defined.

Section NoOpenerLeft.

Variable suffix : string.
Hypothesis Hcss : (suffix =? ".css")%string = false.

Lemma quote_free_cons (c : N) (t : list N) :
  quote_free (c :: t) -> is_quote c = false /\ quote_free t.
Proof.
  intros H. split; [exact (H 0 c eq_refl)|].
  intros k d Hd. exact (H (S k) d Hd).
Qed.

Lemma no_opener_cons_plain (c : N) (body : list N) :
  (suffix =? ".py")%string && (c =? hash)%N = false ->
  (suffix_in suffix clike_suffixes && (c =? slash)%N = true ->
   forall e body', body = e :: body' -> (e =? slash)%N = false /\ (e =? star)%N = false) ->
  no_opener suffix body = true ->
  no_opener suffix (c :: body) = true.
Proof.
  intros Hp Hhead Hbody. simpl. rewrite Hbody, Hp, Hcss, orb_false_r, andb_true_r. simpl.
  destruct (suffix_in suffix clike_suffixes && (c =? slash)%N) eqn:E; [|reflexivity].
  destruct body as [|e body']; [reflexivity|].
  destruct (Hhead eq_refl e body' eq_refl) as [E1 E2]. simpl. now rewrite E1, E2.
Qed.

Lemma no_opener_scan_bounded (n : nat) :
  forall l, length l <= n -> quote_free l ->
    no_opener suffix (scan suffix Code l) = true /\
    no_opener suffix (scan suffix LineComment l) = true /\
    no_opener suffix (scan suffix BlockComment l) = true.
Proof.
  induction n as [|n IH]; intros [|c t] Hlen Hq; simpl in Hlen; try lia;
    try (repeat split; reflexivity).
  destruct (quote_free_cons _ _ Hq) as [Hc Ht].
  destruct (IH t ltac:(lia) Ht) as (IHc & IHl & IHb).
  split; [|split].
  - rewrite scan_code_cons, Hc.
    destruct ((suffix =? ".py")%string && (c =? hash)%N) eqn:Hp; [exact IHl|].
    destruct t as [|d t'].
    { apply no_opener_cons_plain; [exact Hp | discriminate | reflexivity]. }
    destruct (quote_free_cons _ _ Ht) as [_ Ht'].
    destruct (IH t' ltac:(simpl in Hlen; lia) Ht') as (_ & IHl' & IHb').
    destruct (suffix_in suffix clike_suffixes && (c =? slash)%N && (d =? slash)%N) eqn:T1;
      [exact IHl'|].
    destruct ((suffix_in suffix clike_suffixes || (suffix =? ".css")%string)
              && (c =? slash)%N && (d =? star)%N) eqn:T2; [exact IHb'|].
    apply no_opener_cons_plain; [exact Hp | | exact IHc].
    intros E e body' Hbody. rewrite E in T1. rewrite Hcss, orb_false_r, E in T2.
    simpl in T1, T2. apply andb_prop in E as [Hcl _].
    destruct (scan_code_head suffix Hcss d t' Hcl T1) as [rest Hrest].
    rewrite Hrest in Hbody. injection Hbody as <- _. auto.
  - rewrite scan_line_cons. destruct (c =? newline)%N eqn:E; [|exact IHl].
    apply N.eqb_eq in E. subst c.
    apply no_opener_cons_plain; [apply andb_false_r | | exact IHc].
    rewrite andb_false_r. discriminate.
  - rewrite scan_block_cons. destruct t as [|d t']; [reflexivity|].
    destruct ((c =? star)%N && (d =? slash)%N); [|exact IHb].
    destruct (quote_free_cons _ _ Ht) as [_ Ht'].
    destruct (IH t' ltac:(simpl in Hlen; lia) Ht') as (IHc' & _). exact IHc'.
Qed.

Lemma no_opener_at (l : list N) :
  no_opener suffix l = true ->
  forall k, opens_line_comment l suffix k = None /\
            opens_block_comment l suffix k = false.
Proof.
  induction l as [|c t IH]; intros H k.
  - unfold opens_line_comment, opens_block_comment. rewrite !lookup_nil. simpl.
    rewrite !andb_false_r. auto.
  - simpl in H. apply andb_prop in H as [Hh Ht]. destruct k as [|k].
    + unfold opens_line_comment, opens_block_comment. simpl.
      rewrite <- head_lookup.
      apply negb_true_iff in Hh. apply orb_false_elim in Hh as [Hh H3].
      apply orb_false_elim in Hh as [H1 H2]. now rewrite H1, H2, H3.
    + exact (IH Ht k).
Qed.

End NoOpenerLeft.

(** X2. No comment is left behind: for Python and the C-like languages the
    cleaned form of a text without quote characters holds no comment opener
    of the language at any position. *)
Theorem no_opener_left (content : list N) (suffix : string) :
  (suffix =? ".css")%string = false ->
  suffix_in suffix markup_suffixes = false ->
  quote_free content ->
  exists out, remove_comments_safely content suffix = Some out /\
    forall k, opens_line_comment out suffix k = None /\
              opens_block_comment out suffix k = false.
Proof.
  intros Hcss Hmarkup Hq. exists (scan suffix Code content).
  split; [now apply loop_is_scan|].
  apply (no_opener_at suffix).
  now apply (no_opener_scan_bounded suffix Hcss (length content) content (Nat.le_refl _) Hq).
Qed.

Lemma no_opener_left_witness :
  exists out, remove_comments_safely (str "x/*c*/y") ".c" = Some out /\
    forall k, opens_line_comment out ".c" k = None /\
              opens_block_comment out ".c" k = false.
Proof.
  apply no_opener_left; [reflexivity | reflexivity |].
  intros k c H. do 7 (destruct k as [|k]; [vm_compute in H; injection H as <-; reflexivity|]).
  vm_compute in H. discriminate.
Defined.

Section PythonLines.

Lemma count_newline_scan_py (l : list N) :
  count_char newline (scan ".py" Code l) = count_char newline l /\
  count_char newline (scan ".py" LineComment l) = count_char newline l /\
  forall q p, count_char newline (scan ".py" (StringLiteral q p) l) = count_char newline l.
Proof.
  induction l as [|c t (IHc & IHl & IHs)]; [repeat split; reflexivity|].
  split; [|split].
  - rewrite scan_code_cons. destruct (is_quote c).
    { simpl. now rewrite IHs. }
    change ((".py" =? ".py")%string) with true.
    change (suffix_in ".py" clike_suffixes) with false. cbv beta iota. simpl andb. simpl orb.
    destruct (c =? hash)%N eqn:E.
    { apply N.eqb_eq in E. subst c. simpl. exact IHl. }
    destruct t as [|d t']; [reflexivity|].
    change (count_char newline (c :: scan ".py" Code (d :: t'))) with
      ((if (c =? newline)%N then 1 else 0) + count_char newline (scan ".py" Code (d :: t'))).
    now rewrite IHc.
  - rewrite scan_line_cons. destruct (c =? newline)%N eqn:E.
    + simpl. rewrite E, IHc. reflexivity.
    + simpl. rewrite E, IHl. reflexivity.
  - intros q p. rewrite scan_string_cons. simpl.
    destruct ((q =? c)%N && negb (p =? backslash)%N); [now rewrite IHc | now rewrite IHs].
Qed.

End PythonLines.

(** X3. Cleaning a Python file keeps every newline: the output has as many
    newline characters as the input, so line numbers are unchanged. *)
Theorem python_keeps_newlines (content : list N) :
  exists out, remove_comments_safely content ".py" = Some out /\
              count_char newline out = count_char newline content.
Proof.
  exists (scan ".py" Code content). split.
  - now apply loop_is_scan.
  - apply count_newline_scan_py.
Qed.

Section FindFirst.

Lemma starts_with_of_take (pat s : list N) :
  take (length pat) s = pat -> starts_with pat s = true.
Proof.
  revert s. induction pat as [|p pat IH]; intros s H; [reflexivity|].
  destruct s as [|c s]; [discriminate|]. simpl in H. injection H as -> H.
  simpl. rewrite N.eqb_refl. now apply IH.
Qed.

Lemma find_at_unfold (pat s : list N) (start : nat) :
  find_at pat s start =
  if starts_with pat s then Some start
  else match s with
       | [] => None
       | _ :: s' => find_at pat s' (S start)
       end.
Proof. destruct s; reflexivity. Qed.

Lemma find_at_first (pat s : list N) (start e : nat) :
  start <= e -> e - start <= length s ->
  starts_with pat (drop (e - start) s) = true ->
  (forall k, start <= k < e -> starts_with pat (drop (k - start) s) = false) ->
  find_at pat s start = Some e.
Proof.
  revert start. induction s as [|c s IH]; intros start Hle Hlen Hat Hno;
    rewrite find_at_unfold.
  - simpl in Hlen. assert (e = start) as -> by lia.
    rewrite Nat.sub_diag in Hat. simpl in Hat. now rewrite Hat.
  - destruct (Nat.eq_dec e start) as [->|Hne].
    + rewrite Nat.sub_diag in Hat. simpl in Hat. now rewrite Hat.
    + pose proof (Hno start ltac:(lia)) as H0. rewrite Nat.sub_diag in H0.
      simpl in H0. rewrite H0. apply IH.
      * lia.
      * simpl in Hlen. lia.
      * replace (e - start) with (S (e - S start)) in Hat by lia. exact Hat.
      * intros k Hk. specialize (Hno k ltac:(lia)).
        replace (k - start) with (S (k - S start)) in Hno by lia. exact Hno.
Qed.

(** [find] returns the lowest index, from [start] on, at which the
    pattern stands. *)
Lemma py_find_first (s pat : list N) (start e : nat) :
  start <= e -> e <= length s ->
  py_slice s e (length pat) = pat ->
  (forall k, start <= k < e -> py_slice s k (length pat) <> pat) ->
  py_find s pat start = Some e.
Proof.
  intros Hle Hlen Hat Hno. unfold py_find.
  replace (start <=? length s) with true by (symmetry; apply Nat.leb_le; lia).
  apply find_at_first; [exact Hle | rewrite length_drop; lia | |].
  - rewrite drop_drop. replace (start + (e - start)) with e by lia.
    now apply starts_with_of_take.
  - intros k Hk. rewrite drop_drop. replace (start + (k - start)) with k by lia.
    destruct (starts_with pat (drop k s)) eqn:E; [|reflexivity].
    exfalso. apply (Hno k Hk). now apply starts_with_take.
Qed.

End FindFirst.

(** X4. A closed markup comment is skipped whole.  From code mode at the
    four opening characters, with the closing marker first standing at
    index [e], four or more characters behind the start of the opener, the
    iteration emits nothing and continues in code mode behind the closing
    marker. *)
Theorem markup_comment_removed (content : list N) (suffix : string) (st : State) (e : nat) :
  code_mode st = true -> suffix_in suffix markup_suffixes = true ->
  py_slice content (i st) 4 = str "<!--" ->
  i st + 4 <= e -> py_slice content e 3 = str "-->" ->
  (forall k, i st + 4 <= k < e -> py_slice content k 3 <> str "-->") ->
  exists st', step content suffix st = Some st' /\
              result st' = result st /\ i st' = e + 3 /\ code_mode st' = true.
Proof.
  intros Hm Hs Ho He Hc Hno.
  assert (Hlt : content !! i st = Some less_than).
  { pose proof (f_equal (fun l => l !! 0) Ho) as H. simpl in H.
    unfold py_slice in H. rewrite lookup_take_lt, lookup_drop, Nat.add_0_r in H by lia.
    exact H. }
  assert (Hlen : e <= length content).
  { destruct (Nat.le_gt_cases e (length content)) as [H|H]; [exact H|].
    unfold py_slice in Hc. rewrite drop_ge in Hc by lia. discriminate. }
  pose proof (py_find_first content (str "-->") (i st + 4) e He Hlen Hc Hno) as Hf.
  rewrite (step_code content suffix st less_than Hm Hlt). simpl.
  change (is_quote less_than) with false. cbv iota.
  rewrite !andb_false_r, Hs, Hf. simpl.
  rewrite bool_decide_eq_true_2 by exact Ho.
  eexists. split; [reflexivity|]. simpl. auto.
Qed.

Lemma markup_comment_removed_witness :
  exists st', step (str "<!--a-->b") ".html" init = Some st' /\
              result st' = result init /\ i st' = 5 + 3 /\ code_mode st' = true.
Proof.
  apply (markup_comment_removed (str "<!--a-->b") ".html" init 5);
    [reflexivity | reflexivity | reflexivity | simpl; lia | reflexivity |].
  intros k Hk. simpl in Hk. assert (k = 4) as -> by lia. discriminate.
Defined.

Section StringSegments.

Variable content : list N.
Variable suffix : string.

Lemma string_close_test (q c p : N) (k : nat) :
  content !! k = Some c -> content !! (k - 1) = Some p ->
  is_char (Some q) c && negb (p =? backslash)%N = true <-> string_close_at content q k.
Proof.
  intros Hc Hp. unfold string_close_at. rewrite Hc, Hp. simpl.
  destruct (N.eqb_spec q c) as [->|Hne]; destruct (N.eqb_spec p backslash) as [->|Hnp];
    simpl; intuition (try congruence; try discriminate).
Qed.

(** In string mode everything up to and including the closing delimiter
    is emitted. *)
Lemma string_skip (d : nat) (st : State) (j : nat) (q : N) :
  j = i st + d ->
  in_line_comment st = false -> in_block_comment st = false -> in_string st = true ->
  string_char st = Some q -> 1 <= i st ->
  string_close_at content q j ->
  (forall k, i st <= k < j -> ~ string_close_at content q k) ->
  iter content suffix (S d) st =
  Some (mkState (result st ++ take (S d) (drop (i st) content)) (j + 1)
                false (Some q) false false).
Proof.
  revert st. induction d as [|d IH]; intros st Hj Hl Hb Hs Hq Hi Hclose Hno.
  - rewrite Nat.add_0_r in Hj. subst j. pose proof Hclose as [Hc _].
    pose proof (lookup_lt_Some _ _ _ Hc) as Hlt.
    destruct (lookup_lt_is_Some' content (i st - 1) ltac:(lia)) as [p Hp].
    rewrite (iter_S content suffix 0 st _ Hlt
               (step_string content suffix st q p Hl Hb Hs Hi Hc Hp)).
    rewrite Hq. rewrite (proj2 (string_close_test q q p (i st) Hc Hp) Hclose).
    rewrite (drop_S _ _ _ Hc). reflexivity.
  - pose proof Hclose as [Hcj _]. pose proof (lookup_lt_Some _ _ _ Hcj) as Hlt.
    destruct (lookup_lt_is_Some' content (i st) ltac:(lia)) as [c Hc].
    destruct (lookup_lt_is_Some' content (i st - 1) ltac:(lia)) as [p Hp].
    rewrite (iter_S content suffix (S d) st _ ltac:(lia)
               (step_string content suffix st c p Hl Hb Hs Hi Hc Hp)).
    rewrite Hq.
    destruct (is_char (Some q) c && negb (p =? backslash)%N) eqn:E.
    { apply (string_close_test q c p (i st) Hc Hp) in E.
      exfalso. apply (Hno (i st)); [lia | exact E]. }
    rewrite (IH _); simpl; try reflexivity; try assumption; try lia.
    + rewrite (drop_S _ _ _ Hc), <- app_assoc, Nat.add_1_r. reflexivity.
    + intros k Hk. apply Hno. lia.
Qed.

(** A string that is never closed runs to the end of the input, and all
    of it is emitted. *)
Lemma string_eof (fuel : nat) (st : State) (q : N) :
  in_line_comment st = false -> in_block_comment st = false -> in_string st = true ->
  string_char st = Some q -> 1 <= i st -> i st <= length content ->
  (forall k, i st <= k -> ~ string_close_at content q k) ->
  length content - i st <= fuel ->
  exists fin, loop content suffix fuel st = Some fin /\
              result fin = result st ++ drop (i st) content.
Proof.
  revert st. induction fuel as [|fuel IH]; intros st Hl Hb Hs Hq Hi Hle Hno Hf.
  - exists st. split; [apply loop_exit; lia|]. rewrite drop_ge by lia.
    now rewrite app_nil_r.
  - destruct (Nat.lt_ge_cases (i st) (length content)) as [Hlt|Hge].
    + destruct (lookup_lt_is_Some' content (i st) Hlt) as [c Hc].
      destruct (lookup_lt_is_Some' content (i st - 1) ltac:(lia)) as [p Hp].
      rewrite (loop_body _ _ _ _ _ Hlt
                 (step_string content suffix st c p Hl Hb Hs Hi Hc Hp)).
      rewrite Hq.
      destruct (is_char (Some q) c && negb (p =? backslash)%N) eqn:E.
      { apply (string_close_test q c p (i st) Hc Hp) in E.
        exfalso. apply (Hno (i st)); [lia | exact E]. }
      destruct (IH (mkState (result st ++ [c]) (i st + 1) (negb false) (Some q) false false))
        as (fin & H1 & H2); simpl; try reflexivity; try lia.
      * intros k Hk. apply Hno. lia.
      * exists fin. split; [exact H1|]. rewrite H2. simpl.
        rewrite (drop_S _ _ _ Hc), <- app_assoc, Nat.add_1_r. reflexivity.
    + exists st. split; [apply loop_exit; lia|]. rewrite drop_ge by lia.
      now rewrite app_nil_r.
Qed.

Lemma open_string (st : State) (q : N) :
  code_mode st = true -> content !! i st = Some q -> is_quote q = true ->
  step content suffix st =
  Some (mkState (result st ++ [q]) (i st + 1) true (Some q) false false).
Proof.
  intros Hm Hc Hq. rewrite (step_code content suffix st q Hm Hc). simpl.
  now rewrite Hq.
Qed.

End StringSegments.

(** X5. A string literal is copied whole.  From code mode at a quote
    character, with the first closing delimiter (the same quote character,
    not behind a backslash) at index [j], the scan emits the characters from
    the opening to the closing quote unchanged and is back in code mode
    behind the closing quote. *)
Theorem string_literal_copied (content : list N) (suffix : string) (st : State)
    (q : N) (j : nat) :
  code_mode st = true -> content !! i st = Some q -> is_quote q = true ->
  i st < j -> string_close_at content q j ->
  (forall k, i st < k < j -> ~ string_close_at content q k) ->
  exists n st', iter content suffix n st = Some st' /\
                result st' = result st ++ py_slice content (i st) (j - i st + 1) /\
                i st' = j + 1 /\ code_mode st' = true.
Proof.
  intros Hm Hc Hq Hj Hclose Hno.
  pose proof (open_string content suffix st q Hm Hc Hq) as Hs.
  pose proof (lookup_lt_Some _ _ _ Hc) as Hlt.
  exists (S (S (j - (i st + 1)))). eexists. split.
  - rewrite (iter_S content suffix _ st _ Hlt Hs).
    apply (string_skip content suffix _ _ j q); simpl; try reflexivity;
      try assumption; try lia.
    intros k Hk. apply Hno. lia.
  - simpl. split; [|auto]. unfold py_slice.
    rewrite (drop_S _ _ _ Hc), <- app_assoc, Nat.add_1_r.
    replace (j - i st + 1) with (S (S (j - S (i st)))) by lia. reflexivity.
Qed.

Lemma string_literal_copied_witness :
  exists n st',
    iter ([dquote] ++ str "a#" ++ [dquote] ++ str "z") ".py" n init = Some st' /\
    result st' = result init
                 ++ py_slice ([dquote] ++ str "a#" ++ [dquote] ++ str "z") (i init) (3 - i init + 1) /\
    i st' = 3 + 1 /\ code_mode st' = true.
Proof.
  apply (string_literal_copied ([dquote] ++ str "a#" ++ [dquote] ++ str "z") ".py" init
           dquote 3); [reflexivity | reflexivity | reflexivity | simpl; lia | |].
  - split; [reflexivity | discriminate].
  - intros k Hk [H _]. simpl in Hk.
    destruct k as [|[|[|k]]]; [lia | discriminate | discriminate | lia].
Defined.

(** X6. A string that is never closed switches comment removal off for
    the rest of the text: from code mode at a quote character with no
    closing delimiter behind it, the function returns what had been emitted
    so far followed by the whole rest of the input. *)
Theorem unterminated_string_copies_rest (content : list N) (suffix : string) (st : State)
    (q : N) :
  reachable content suffix st -> code_mode st = true ->
  content !! i st = Some q -> is_quote q = true ->
  (forall k, i st < k -> ~ string_close_at content q k) ->
  remove_comments_safely content suffix = Some (result st ++ drop (i st) content).
Proof.
  intros Hr Hm Hc Hq Hno.
  pose proof (open_string content suffix st q Hm Hc Hq) as Hs.
  pose proof (lookup_lt_Some _ _ _ Hc) as Hlt.
  destruct (reachable_output content suffix st Hr) as (fin & Hl & Hout & _).
  rewrite Hout. f_equal.
  replace (length content - i st) with (S (length content - i st - 1)) in Hl by lia.
  rewrite (loop_body _ _ _ _ _ Hlt Hs) in Hl.
  destruct (string_eof content suffix (length content - i st - 1)
              (mkState (result st ++ [q]) (i st + 1) true (Some q) false false) q)
    as (fin' & Hl' & Hres); simpl; try reflexivity; try lia.
  - intros k Hk. apply Hno. lia.
  - rewrite Hl' in Hl. injection Hl as <-. rewrite Hres. simpl.
    rewrite (drop_S _ _ _ Hc), <- app_assoc, Nat.add_1_r. reflexivity.
Qed.

Lemma unterminated_string_copies_rest_witness :
  remove_comments_safely ([squote] ++ str "a#b") ".py"
  = Some (result init ++ drop (i init) ([squote] ++ str "a#b")).
Proof.
  apply (unterminated_string_copies_rest ([squote] ++ str "a#b") ".py" init squote);
    [exists 0; reflexivity | reflexivity | reflexivity | reflexivity |].
  intros k Hk [H _]. simpl in Hk.
  destruct k as [|[|[|[|k]]]]; [lia | discriminate | discriminate | discriminate | discriminate].
Defined.

(** * Further properties of the pipeline *)

Section PipelineShape.

Variable ext : External.

Lemma backup_path_ne (file_path : string) : backup_path file_path <> file_path.
Proof.
  unfold backup_path. induction file_path as [|a p IH]; simpl; [discriminate|].
  intros H. injection H as H. exact (IH H).
Qed.

Lemma validate_syntax_preserves (fs : gmap string (list Byte.byte)) (file_path : string)
    (content : list N) (p : string) :
  fresh_temp ext -> is_Some (fs !! p) ->
  snd (validate_syntax ext fs file_path content) !! p = fs !! p.
Proof.
  intros Hfresh [data Hp].
  destruct (validate_syntax_effect ext fs file_path content) as [->|(tmp & d & Ht & ->)];
    [reflexivity|].
  apply Hfresh in Ht. apply lookup_insert_ne. congruence.
Qed.

Lemma scanner_returns (content : list N) (suffix : string) :
  exists cleaned, remove_comments_safely content suffix = Some cleaned.
Proof. destruct (run_final content suffix) as (n & fin & _ & _ & _ & H). eauto. Qed.

(** The file system [process_file] leaves, by outcome: unless the outcome
    is OK it is the one the syntax check left, possibly with the backup
    added; with outcome OK the encoded cleaned text has been stored on top
    of that. *)
Lemma process_file_shape (fs : gmap string (list Byte.byte)) (file_path : string)
    (backup validate dry_run : bool) (original : list Byte.byte) :
  fs !! file_path = Some original ->
  let r := process_file ext fs file_path backup validate dry_run in
  exists cleaned fs1,
    remove_comments_safely (utf8_decode_ignore ext original) (suffix_of ext file_path)
      = Some cleaned /\
    (fs1 = fs \/ validate = true /\ fs1 = snd (validate_syntax ext fs file_path cleaned)) /\
    ((fst r <> ("[OK] " ++ file_path)%string /\
      (snd r = fs1 \/
       backup = true /\ dry_run = false /\
       exists d, fs1 !! file_path = Some d /\ snd r = <[backup_path file_path := d]> fs1))
     \/
     (fst r = ("[OK] " ++ file_path)%string /\ dry_run = false /\
      exists data fs2,
        utf8_encode ext cleaned = Some data /\ snd r = <[file_path := data]> fs2 /\
        (backup = false /\ fs2 = fs1 \/
         backup = true /\ exists d, fs1 !! file_path = Some d /\
                                    fs2 = <[backup_path file_path := d]> fs1))).
Proof.
  intros Hread r. subst r.
  destruct (scanner_returns (utf8_decode_ignore ext original) (suffix_of ext file_path))
    as [cleaned Hclean].
  unfold process_file. rewrite Hread, Hclean.
  set (checked := if validate then validate_syntax ext fs file_path cleaned else (true, fs)).
  exists cleaned, (snd checked).
  split; [reflexivity|]. split.
  { subst checked. destruct validate; [right; auto | left; reflexivity]. }
  destruct checked as [valid fs1]. simpl snd.
  destruct (validate && negb valid).
  { left. split; [simpl; discriminate | left; reflexivity]. }
  destruct dry_run.
  { left. split; [simpl; discriminate | left; reflexivity]. }
  destruct backup.
  - unfold copy. destruct (fs1 !! file_path) as [d|] eqn:Hd.
    + destruct (writable ext fs1 (backup_path file_path)).
      * unfold write_text. destruct (utf8_encode ext cleaned) as [data|].
        -- destruct (writable ext _ file_path).
           ++ right. simpl. split; [reflexivity|]. split; [reflexivity|].
              exists data, (<[backup_path file_path := d]> fs1).
              split; [reflexivity|]. split; [reflexivity|]. right. eauto.
           ++ left. split; [simpl; discriminate|]. right. simpl. eauto.
        -- left. split; [simpl; discriminate|]. right. simpl. eauto.
      * left. split; [simpl; discriminate | left; reflexivity].
    + left. split; [simpl; discriminate | left; reflexivity].
  - unfold write_text. destruct (utf8_encode ext cleaned) as [data|].
    + destruct (writable ext fs1 file_path).
      * right. simpl. split; [reflexivity|]. split; [reflexivity|].
        exists data, fs1. auto.
      * left. split; [simpl; discriminate | left; reflexivity].
    + left. split; [simpl; discriminate | left; reflexivity].
Qed.

Lemma process_file_missing (fs : gmap string (list Byte.byte)) (file_path : string)
    (backup validate dry_run : bool) :
  fs !! file_path = None ->
  snd (process_file ext fs file_path backup validate dry_run) = fs.
Proof. intros H. unfold process_file. now rewrite H. Qed.

Hypothesis Hfresh : fresh_temp ext.

Lemma checked_preserves (fs fs1 : gmap string (list Byte.byte)) (file_path : string)
    (cleaned : list N) (validate : bool) (p : string) :
  fs1 = fs \/ validate = true /\ fs1 = snd (validate_syntax ext fs file_path cleaned) ->
  is_Some (fs !! p) -> fs1 !! p = fs !! p.
Proof.
  intros [->|[_ ->]] Hp; [reflexivity|]. now apply validate_syntax_preserves.
Qed.

End PipelineShape.

Lemma example_world_fresh : fresh_temp example_world.
Proof. intros fs suffix tmp [= <-]. apply fresh_string_fresh. Defined.

(** X7. Whatever the flags and the outcome, [process_file] changes no
    existing file other than the file itself and its backup. *)
Theorem process_file_frame (ext : External) (fs : gmap string (list Byte.byte))
    (file_path : string) (backup validate dry_run : bool) (p : string) :
  fresh_temp ext -> is_Some (fs !! p) ->
  p <> file_path -> p <> backup_path file_path ->
  snd (process_file ext fs file_path backup validate dry_run) !! p = fs !! p.
Proof.
  intros Hfresh Hp Hne Hnb.
  destruct (fs !! file_path) as [original|] eqn:Hread;
    [|now rewrite process_file_missing].
  destruct (process_file_shape ext fs file_path backup validate dry_run original Hread)
    as (cleaned & fs1 & _ & Hfs1 & Hshape).
  pose proof (checked_preserves ext Hfresh fs fs1 file_path cleaned validate p Hfs1 Hp) as H1.
  destruct Hshape as [(_ & [->|(_ & _ & d & _ & ->)])|(_ & _ & data & fs2 & _ & -> & Hfs2)].
  - exact H1.
  - now rewrite lookup_insert_ne.
  - rewrite lookup_insert_ne by congruence.
    destruct Hfs2 as [(_ & ->)|(_ & d & _ & ->)]; [exact H1|].
    now rewrite lookup_insert_ne.
Qed.

Lemma process_file_frame_witness :
  snd (process_file example_world example_files2 "a.py" true false false) !! "b.css"%string
  = example_files2 !! "b.css"%string.
Proof.
  apply process_file_frame.
  - exact example_world_fresh.
  - eexists. vm_compute. reflexivity.
  - discriminate.
  - discriminate.
Defined.

Section DryRun.

Variable ext : External.
Hypothesis Hfresh : fresh_temp ext.

Lemma process_file_dry_run (fs : gmap string (list Byte.byte)) (file_path : string)
    (backup validate : bool) (p : string) :
  is_Some (fs !! p) ->
  snd (process_file ext fs file_path backup validate true) !! p = fs !! p.
Proof.
  intros Hp.
  destruct (fs !! file_path) as [original|] eqn:Hread;
    [|now rewrite process_file_missing].
  destruct (process_file_shape ext fs file_path backup validate true original Hread)
    as (cleaned & fs1 & _ & Hfs1 & Hshape).
  pose proof (checked_preserves ext Hfresh fs fs1 file_path cleaned validate p Hfs1 Hp) as H1.
  destruct Hshape as [(_ & [->|(_ & Hd & _)])|(_ & Hd & _)];
    [exact H1 | discriminate | discriminate].
Qed.

End DryRun.

(** X8. A dry run over any list of files leaves every existing file as it
    was, with or without validation and backup. *)
Theorem dry_run_changes_nothing (ext : External) (files : list string)
    (fs : gmap string (list Byte.byte)) (backup validate : bool) (p : string) :
  fresh_temp ext -> is_Some (fs !! p) ->
  snd (process_all ext fs files backup validate true) !! p = fs !! p.
Proof.
  intros Hfresh. revert fs. induction files as [|file_path files IH]; intros fs Hp.
  - reflexivity.
  - rewrite process_all_cons. simpl snd.
    pose proof (process_file_dry_run ext Hfresh fs file_path backup validate p Hp) as H1.
    rewrite IH; [exact H1|]. rewrite H1. exact Hp.
Qed.

Lemma dry_run_changes_nothing_witness :
  snd (process_all example_world example_files2 ["a.py"; "b.css"]%string true true true)
    !! "a.py"%string
  = example_files2 !! "a.py"%string.
Proof.
  apply dry_run_changes_nothing.
  - exact example_world_fresh.
  - eexists. vm_compute. reflexivity.
Defined.



(** X10. Outcome OK means the work was done: the file holds the encoded
    cleaned text, and with the backup flag the backup file holds the
    original contents. *)
Theorem ok_means_cleaned_and_backed_up (ext : External)
    (fs : gmap string (list Byte.byte)) (file_path : string)
    (backup validate dry_run : bool) (original : list Byte.byte) :
  fresh_temp ext -> fs !! file_path = Some original ->
  fst (process_file ext fs file_path backup validate dry_run)
    = ("[OK] " ++ file_path)%string ->
  exists cleaned data,
    remove_comments_safely (utf8_decode_ignore ext original) (suffix_of ext file_path)
      = Some cleaned /\
    utf8_encode ext cleaned = Some data /\
    snd (process_file ext fs file_path backup validate dry_run) !! file_path = Some data /\
    (backup = true ->
     snd (process_file ext fs file_path backup validate dry_run) !! backup_path file_path
       = Some original) /\
    dry_run = false.
Proof.
  intros Hfresh Hread Hout.
  destruct (process_file_shape ext fs file_path backup validate dry_run original Hread)
    as (cleaned & fs1 & Hclean & Hfs1 & Hshape).
  pose proof (checked_preserves ext Hfresh fs fs1 file_path cleaned validate file_path
                Hfs1 ltac:(rewrite Hread; eauto)) as H1.
  destruct Hshape as [(Hno & _)|(_ & Hdry & data & fs2 & Henc & Hsnd & Hfs2)];
    [contradiction|].
  exists cleaned, data. split; [exact Hclean|]. split; [exact Henc|].
  rewrite Hsnd. split; [apply lookup_insert_eq|]. split; [|exact Hdry].
  intros Hb. destruct Hfs2 as [(Hb' & _)|(_ & d & Hd & ->)]; [congruence|].
  rewrite lookup_insert_ne by (intros E; symmetry in E; now apply backup_path_ne in E).
  rewrite lookup_insert_eq. congruence.
Qed.

Lemma ok_means_cleaned_and_backed_up_witness :
  exists cleaned data,
    remove_comments_safely
      (utf8_decode_ignore example_world [Byte.x78; Byte.x23; Byte.x79])
      (suffix_of example_world "a.py") = Some cleaned /\
    utf8_encode example_world cleaned = Some data /\
    snd (process_file example_world example_files2 "a.py" true false false) !! "a.py"%string
      = Some data /\
    (true = true ->
     snd (process_file example_world example_files2 "a.py" true false false)
       !! backup_path "a.py" = Some [Byte.x78; Byte.x23; Byte.x79]) /\
    false = false.
Proof.
  apply ok_means_cleaned_and_backed_up.
  - exact example_world_fresh.
  - vm_compute. reflexivity.
  - vm_compute. reflexivity.
Defined.

Section Validate.

Variable ext : External.


End Validate.






Section Selection.

Variable ext : External.
Variable tree : Tree.
Variable extensions : list string.

Lemma iter_files_loop (paths files : list string) :
  fold_left
    (fun files path =>
       if negb (is_file tree path) then files
       else if negb (suffix_in (suffix_of ext path) extensions) then files
       else if in_excluded_dir tree path then files
       else files ++ [path]) paths files
  = files ++ List.filter (selected ext tree extensions) paths.
Proof.
  revert files. induction paths as [|path paths IH]; intros files; simpl.
  - now rewrite app_nil_r.
  - rewrite IH. unfold selected.
    destruct (is_file tree path), (suffix_in (suffix_of ext path) extensions),
      (in_excluded_dir tree path); simpl; try reflexivity.
    now rewrite <- app_assoc.
Qed.

End Selection.

Section SelectionProperties.

Variable ext : External.
Variable tree : Tree.
Variable extensions : list string.

Lemma iter_files_filter (root : string) :
  iter_files ext tree root extensions
  = List.filter (selected ext tree extensions) (rglob tree root).
Proof. unfold iter_files. now rewrite iter_files_loop. Qed.

Lemma filter_sublist (f : string -> bool) (l : list string) :
  sublist (List.filter f l) l.
Proof.
  induction l as [|x l IH]; simpl; [constructor|].
  destruct (f x); now constructor.
Qed.

Lemma filter_none (f : string -> bool) (l : list string) :
  (forall x, In x l -> f x = false) -> List.filter f l = [].
Proof.
  induction l as [|x l IH]; intros H; simpl; [reflexivity|].
  rewrite (H x (or_introl eq_refl)). apply IH. intros y Hy. apply H. now right.
Qed.

Lemma in_excluded_dir_spec (path : string) :
  in_excluded_dir tree path = true <->
  exists part, In part (parts tree path) /\ In part EXCLUDED_DIRS.
Proof.
  unfold in_excluded_dir. rewrite existsb_exists. split.
  - intros (part & Hp & He). apply existsb_exists in He as (d & Hd & Heq).
    apply String.eqb_eq in Heq. subst. eauto.
  - intros (part & Hp & He). exists part. split; [exact Hp|].
    apply existsb_exists. exists part. split; [exact He | apply String.eqb_refl].
Qed.

End SelectionProperties.

(** X14. [iter_files] returns, in the order of the traversal, exactly the
    paths that are regular files, have one of the given extensions and
    have no excluded name among their components. *)
Theorem iter_files_selects (ext : External) (tree : Tree) (root : string)
    (extensions : list string) :
  sublist (iter_files ext tree root extensions) (rglob tree root) /\
  forall path,
    In path (iter_files ext tree root extensions) <->
    In path (rglob tree root) /\ is_file tree path = true /\
    In (suffix_of ext path) extensions /\
    forall part, In part (parts tree path) -> ~ In part EXCLUDED_DIRS.
Proof.
  rewrite iter_files_filter. split; [apply filter_sublist|].
  intros path. rewrite filter_In. unfold selected.
  rewrite !andb_true_iff, negb_true_iff.
  assert (Hsuffix : suffix_in (suffix_of ext path) extensions = true <->
                    In (suffix_of ext path) extensions).
  { unfold suffix_in. rewrite existsb_exists. split.
    - intros (x & Hx & Heq). apply String.eqb_eq in Heq. now subst.
    - intros H. exists (suffix_of ext path). split; [exact H | apply String.eqb_refl]. }
  assert (Hexcl : in_excluded_dir tree path = false <->
                  forall part, In part (parts tree path) -> ~ In part EXCLUDED_DIRS).
  { rewrite <- not_true_iff_false, in_excluded_dir_spec. split.
    - intros H part Hp He. apply H. eauto.
    - intros H (part & Hp & He). exact (H part Hp He). }
  rewrite Hsuffix, Hexcl. tauto.
Qed.

(** X15. When the root itself lies in or is a directory with an excluded
    name, nothing is selected: every path below the root carries the
    root's components. *)
Theorem excluded_root_selects_nothing (ext : External) (tree : Tree) (root : string)
    (extensions : list string) :
  (forall path, In path (rglob tree root) ->
                parts tree root `prefix_of` parts tree path) ->
  (exists part, In part (parts tree root) /\ In part EXCLUDED_DIRS) ->
  iter_files ext tree root extensions = [].
Proof.
  intros Hbelow (part & Hp & He). rewrite iter_files_filter.
  apply filter_none. intros path Hpath. unfold selected.
  replace (in_excluded_dir tree path) with true; [apply andb_false_r|].
  symmetry. apply in_excluded_dir_spec. exists part. split; [|exact He].
  destruct (Hbelow path Hpath) as [rest ->]. apply in_or_app. now left.
Qed.

Lemma excluded_root_selects_nothing_witness :
  iter_files example_world example_tree "build" DEFAULT_EXTENSIONS = [].
Proof.
  apply excluded_root_selects_nothing.
  - intros path [<-|[]]. exists ["a.py"%string]. reflexivity.
  - exists "build"%string. split; [left; reflexivity | vm_compute; tauto].
Defined.
